(** * irrevolutions: rank-gated console output, logger set-up and results
      storage ([utils/__init__.py])

    The Python code is embedded shallowly.  A computation of the program is
    a function from an environment (what the process finds around it) and
    the registry of the [logging] module to an outcome, the new registry and
    the list of I/O operations it issued, oldest first.

    - A Python [str] is a list of Unicode code points.
    - A [dict] with string keys is a [gmap].
    - An exception is an outcome [Raise e]; what follows a raising statement
      is not executed; [with] closes its resource on the way out.
    - Standard output and standard error are text streams encoding with
      UTF-8, standard output strictly, standard error replacing what it
      cannot encode (as Python opens them).  A stream may be broken, so
      that a write on it raises [OSError], or accept a write into its
      buffer and raise [OSError] when flushed.
    - What else the surroundings refuse (the file system, the archive
      library, a stream that is closed, a log file that cannot encode a
      record) is given by a function from operations to exceptions.
      [store_results_io], [setup_logger_mpi_io] and [logging.log_io] are
      the code under any such function and, for the logger, any handlers
      of the root logger.  [store_results], [setup_logger_mpi] and
      [logging.log] are the same code where nothing is refused and the
      root logger has no handler. *)

From Stdlib Require Import NArith QArith Ascii String DecimalString.
From stdpp Require Import base option list gmap.

Local Open Scope N_scope.
Local Open Scope list_scope.

(** ** Python strings *)

Abbreviation pystr := (list N).

(** An ASCII literal as a Python string. *)
Definition lit (s : String.string) : pystr :=
  map N_of_ascii (String.list_ascii_of_string s).

(** [str(n)] for a non-negative integer. *)
Definition str_of_nat (n : nat) : pystr :=
  lit (NilEmpty.string_of_uint (Nat.to_uint n)).

(** [ch.isspace()] for one code point: the code points CPython lists as
    white space (bidirectional type WS, B or S, or category Zs). *)
Definition isspace (c : N) : bool :=
  ((9 <=? c) && (c <=? 13)) || ((28 <=? c) && (c <=? 32))
  || (c =? 133) || (c =? 160) || (c =? 5760)
  || ((8192 <=? c) && (c <=? 8202))
  || (c =? 8232) || (c =? 8233) || (c =? 8239) || (c =? 8287) || (c =? 12288).

Fixpoint lstrip (s : pystr) : pystr :=
  match s with
  | c :: s' => if isspace c then lstrip s' else s
  | [] => []
  end.

Definition rstrip (s : pystr) : pystr := rev (lstrip (rev s)).

(** [s.strip()] *)
Definition strip (s : pystr) : pystr := rstrip (lstrip s).

(** ** Data handed to the storage class *)

(** Run parameters: scalars, mappings and sequences. *)
#[warnings="-register-all"]
Inductive PyVal : Type :=
| VNone
| VBool (b : bool)
| VInt (i : Z)
| VFloat (x : Q)
| VStr (s : pystr)
| VList (l : list PyVal)
| VDict (d : list (pystr * PyVal)).

(** Samples of a history series.  The code copies them and never computes
    with them. *)
Abbreviation Sample := Q.

Record Mesh := { mesh_id : N }.
Record FunctionSpace := { mesh : Mesh }.
Record Function := { function_space : FunctionSpace; name : pystr }.

(** ** The process and what it can do *)

(** [MPI.COMM_WORLD] as one process sees it. *)
Record Comm := { rank : nat; size : nat }.

Inductive Stream := Stdout | Stderr.

#[global] Instance Stream_eq_dec : EqDecision Stream.
Proof. solve_decision. Defined.

Inductive Encoding := HDF5 | ASCII.

Inductive Event : Type :=
| EWrite (s : Stream) (data : pystr)          (* s.write(data) *)
| EFlush (s : Stream)                         (* s.flush() *)
| EOpen (path mode : pystr)                   (* open(path, mode) *)
| EYamlDump (path : pystr) (v : PyVal)        (* yaml.dump(v, file) *)
| EJsonDump (path : pystr) (h : gmap pystr (list Sample))
                                              (* json.dump(h, file) *)
| EFileWrite (path data : pystr)              (* file.write(data) *)
| EFileFlush (path : pystr)
| EClose (path : pystr)
| EXdmfOpen (path mode : pystr) (enc : Encoding)   (* XDMFFile(comm, ...) *)
| EXdmfWriteMesh (path : pystr) (m : Mesh)
| EXdmfWriteFunction (path : pystr) (f : Function) (t : Sample)
| EXdmfClose (path : pystr)
| ETraceback (s : Stream).                    (* traceback.print_exception *)

Inductive Exn :=
| KeyError (key : pystr)
| IndexError
| OSError (s : Stream)
| UnicodeEncodeError
| ValueError
| OSErrorOn (path : pystr).             (* an [OSError] on a file *)

Inductive Result (A : Type) :=
| Ok (a : A)
| Raise (e : Exn).
Arguments Ok {A} a.
Arguments Raise {A} e.

(** ** The [logging] module's objects *)

Inductive FmtPiece :=
| FLit (s : pystr)
| FAsctime | FName | FLevelname | FMessage.

Inductive Sink :=
| ToStream (s : Stream)
| ToFile (path : pystr).

Record Handler := {
  h_sink : Sink;
  h_level : nat;
  h_formatter : option (list FmtPiece)
}.

Record Logger := {
  l_level : nat;
  l_handlers : list Handler
}.

Record Env := {
  broken : list Stream;            (* streams whose write raises OSError *)
  flush_broken : list Stream;      (* streams whose flush raises OSError *)
  asctime : pystr;                 (* the clock, as the formatter prints it *)
  dolfinx_version : pystr;         (* dolfinx.__version__ *)
  dolfinx_git_commit_hash : pystr  (* dolfinx.git_commit_hash *)
}.

(** ** The monad of the embedding *)

Definition M (A : Type) : Type :=
  Env -> gmap pystr Logger -> Result A * gmap pystr Logger * list Event.

Definition ret {A} (a : A) : M A := fun _ reg => (Ok a, reg, []).

Definition bind {A B} (m : M A) (k : A -> M B) : M B :=
  fun env reg =>
    match m env reg with
    | (Ok a, reg1, ev1) =>
        let '(r, reg2, ev2) := k a env reg1 in (r, reg2, ev1 ++ ev2)
    | (Raise e, reg1, ev1) => (Raise e, reg1, ev1)
    end.

Definition raise {A} (e : Exn) : M A := fun _ reg => (Raise e, reg, []).

Definition tell (e : Event) : M unit := fun _ reg => (Ok tt, reg, [e]).

Definition ask : M Env := fun env reg => (Ok env, reg, []).

Definition get_registry : M (gmap pystr Logger) :=
  fun _ reg => (Ok reg, reg, []).

Definition put_registry (reg : gmap pystr Logger) : M unit :=
  fun _ _ => (Ok tt, reg, []).

(** [try: m  except Exception: h e] *)
Definition try_except {A} (m : M A) (h : Exn -> M A) : M A :=
  fun env reg =>
    match m env reg with
    | (Raise e, reg1, ev1) =>
        let '(r, reg2, ev2) := h e env reg1 in (r, reg2, ev1 ++ ev2)
    | ok => ok
    end.

(** [try: m  finally: f] *)
Definition try_finally {A} (m : M A) (f : M unit) : M A :=
  fun env reg =>
    let '(r, reg1, ev1) := m env reg in
    match f env reg1 with
    | (Ok _, reg2, ev2) => (r, reg2, ev1 ++ ev2)
    | (Raise e, reg2, ev2) => (Raise e, reg2, ev1 ++ ev2)
    end.

Declare Scope py_scope.
Delimit Scope py_scope with py.
Notation "x <- m ;; k" := (bind m (fun x => k))
  (at level 100, m at next level, right associativity) : py_scope.
Notation "m ;; k" := (bind m (fun _ => k))
  (at level 100, right associativity) : py_scope.
Local Open Scope py_scope.

Definition outcome {A} (x : Result A * gmap pystr Logger * list Event) :
  Result A := x.1.1.
Definition registry_of {A} (x : Result A * gmap pystr Logger * list Event) :
  gmap pystr Logger := x.1.2.
Definition events {A} (x : Result A * gmap pystr Logger * list Event) :
  list Event := x.2.

Definition returns {A} (r : Result A) : bool :=
  match r with Ok _ => true | Raise _ => false end.

(** ** Primitive operations *)

(** [d[key]] *)
Definition getitem {V} (d : gmap pystr V) (key : pystr) : M V :=
  match d !! key with
  | Some v => ret v
  | None => raise (KeyError key)
  end.

(** [l[-1]] *)
Definition getitem_last {A} (l : list A) : M A :=
  match last l with
  | Some a => ret a
  | None => raise IndexError
  end.

(** UTF-8 has an encoding for every code point but the surrogates. *)
Definition encodable (text : pystr) : bool :=
  forallb (fun c => (c <? 55296) || ((57343 <? c) && (c <=? 1114111))) text.

(** [sys.stdout] has the error handler ['strict'], [sys.stderr] has
    ['backslashreplace'] and so takes every text. *)
Definition accepts_text (s : Stream) (text : pystr) : bool :=
  match s with
  | Stdout => encodable text
  | Stderr => true
  end.

(** The write of a text that the stream can encode. *)
Definition buffer_write (s : Stream) (data : pystr) : M unit :=
  env <- ask ;;
  if bool_decide (s ∈ broken env) then raise (OSError s)
  else tell (EWrite s data).

(** [s.write(data)] *)
Definition stream_write (s : Stream) (data : pystr) : M unit :=
  if accepts_text s data then buffer_write s data
  else raise UnicodeEncodeError.

(** [s.flush()] *)
Definition stream_flush (s : Stream) : M unit :=
  env <- ask ;;
  if bool_decide (s ∈ broken env) || bool_decide (s ∈ flush_broken env)
  then raise (OSError s)
  else tell (EFlush s).

(** ** What the surroundings refuse

    What the file system, the archive library and the streams refuse is a
    function [io]: to an operation it gives the exception that the
    operation raises, or [None] when the operation is carried out. *)

Definition accepts_all : Event -> option Exn := fun _ => None.

Definition attempt (io : Event -> option Exn) (e : Event) : M unit :=
  match io e with
  | Some exn => raise exn
  | None => tell e
  end.

(** The value of an expression that may raise. *)
Definition of_result {A} (r : Result A) : M A :=
  match r with
  | Ok a => ret a
  | Raise e => raise e
  end.

(** [m], unless [io] refuses the operation [e]. *)
Definition refuse {A} (io : Event -> option Exn) (e : Event) (m : M A) :
  M A :=
  match io e with
  | Some exn => raise exn
  | None => m
  end.

(** An [OSError], of a stream or of a file. *)
Definition is_OSError (e : Exn) : bool :=
  match e with
  | OSError _ | OSErrorOn _ => true
  | _ => false
  end.

(** ** [ColorPrint] *)

Definition ESC : N := 27.
Definition default_end : pystr := [10].

(** The methods read the module's global [comm = MPI.COMM_WORLD]; here it
    is their first argument.  [message] is a string, so that [str(message)]
    is [message]; [end_] is the parameter [end], [default_end] its default. *)
Module ColorPrint.

Definition print_fail (comm : Comm) (message end_ : pystr) : M unit :=
  if (rank comm =? 0)%nat then
    stream_write Stderr
      (ESC :: lit "[1;31m" ++ strip message ++ ESC :: lit "[0m" ++ end_) ;;
    stream_flush Stderr
  else ret tt.

Definition print_pass (comm : Comm) (message end_ : pystr) : M unit :=
  if (rank comm =? 0)%nat then
    stream_write Stdout
      (ESC :: lit "[1;32m" ++ strip message ++ ESC :: lit "[0m" ++ end_) ;;
    stream_flush Stdout
  else ret tt.

Definition print_warn (comm : Comm) (message end_ : pystr) : M unit :=
  if (rank comm =? 0)%nat then
    stream_write Stderr
      (ESC :: lit "[1;33m" ++ strip message ++ ESC :: lit "[0m" ++ end_) ;;
    stream_flush Stderr
  else ret tt.

Definition print_info (comm : Comm) (message end_ : pystr) : M unit :=
  if (rank comm =? 0)%nat then
    stream_write Stdout
      (ESC :: lit "[1;34m" ++ strip message ++ ESC :: lit "[0m" ++ end_) ;;
    stream_flush Stdout
  else ret tt.

Definition print_color (comm : Comm) (message end_ : pystr) : M unit :=
  if (rank comm =? 0)%nat then
    stream_write Stdout
      (ESC :: lit "[1;36m" ++ strip message ++ ESC :: lit "[0m" ++ end_) ;;
    stream_flush Stdout
  else ret tt.

Definition print_bold (comm : Comm) (message end_ : pystr) : M unit :=
  if (rank comm =? 0)%nat then
    stream_write Stdout
      (ESC :: lit "[1;37m" ++ strip message ++ ESC :: lit "[0m" ++ end_) ;;
    stream_flush Stdout
  else ret tt.

End ColorPrint.

(** ** The part of the [logging] module that the code uses

    The root logger has the level the module gives it, [WARNING];
    [logging.disable] is never called, and [raiseExceptions] is true. *)

Module logging.

Definition NOTSET : nat := 0.
Definition DEBUG : nat := 10.
Definition INFO : nat := 20.
Definition WARNING : nat := 30.
Definition ERROR : nat := 40.
Definition CRITICAL : nat := 50.

Definition manager_disable : nat := 0.
Definition root_level : nat := WARNING.
Definition terminator : pystr := [10].

Record LogRecord := {
  r_name : pystr;
  r_levelno : nat;
  r_message : pystr
}.

Definition getLevelName (level : nat) : pystr :=
  if (level =? CRITICAL)%nat then lit "CRITICAL"
  else if (level =? ERROR)%nat then lit "ERROR"
  else if (level =? WARNING)%nat then lit "WARNING"
  else if (level =? INFO)%nat then lit "INFO"
  else if (level =? DEBUG)%nat then lit "DEBUG"
  else if (level =? NOTSET)%nat then lit "NOTSET"
  else lit "Level " ++ str_of_nat level.

(** [Formatter.format]; a handler without formatter prints the message. *)
Definition format (fmt : option (list FmtPiece)) (record : LogRecord) :
  M pystr :=
  env <- ask ;;
  ret (concat (map (fun p =>
                      match p with
                      | FLit s => s
                      | FAsctime => asctime env
                      | FName => r_name record
                      | FLevelname => getLevelName (r_levelno record)
                      | FMessage => r_message record
                      end)
                   (default [FMessage] fmt))).

(** [s.write(data)] and [s.flush()] on a stream or a file which may refuse
    them. *)
Definition stream_write_io (io : Event -> option Exn) (s : Stream)
  (data : pystr) : M unit :=
  refuse io (EWrite s data) (stream_write s data).

Definition stream_flush_io (io : Event -> option Exn) (s : Stream) : M unit :=
  refuse io (EFlush s) (stream_flush s).

Definition sink_write_io (io : Event -> option Exn) (k : Sink)
  (data : pystr) : M unit :=
  match k with
  | ToStream s => stream_write_io io s data
  | ToFile path => attempt io (EFileWrite path data)
  end.

Definition sink_flush_io (io : Event -> option Exn) (k : Sink) : M unit :=
  match k with
  | ToStream s => stream_flush_io io s
  | ToFile path => attempt io (EFileFlush path)
  end.

(** The first line of the report of [Handler.handleError]. *)
Definition logging_error : pystr := lit "--- Logging error ---" ++ [10].

(** [Handler.handleError]: the report goes to [sys.stderr], and an
    [OSError] while reporting is passed over; any other exception is not
    caught. *)
Definition handleError_io (io : Event -> option Exn) (record : LogRecord) :
  M unit :=
  try_except
    (stream_write_io io Stderr logging_error ;;
     attempt io (ETraceback Stderr))
    (fun e => if is_OSError e then ret tt else raise e).

(** [StreamHandler.emit]: [except Exception: self.handleError(record)] *)
Definition emit_io (io : Event -> option Exn) (h : Handler)
  (record : LogRecord) : M unit :=
  try_except
    (msg <- format (h_formatter h) record ;;
     sink_write_io io (h_sink h) (msg ++ terminator) ;;
     sink_flush_io io (h_sink h))
    (fun _ => handleError_io io record).

(** [logging.lastResort] *)
Definition lastResort : Handler :=
  {| h_sink := ToStream Stderr; h_level := WARNING; h_formatter := None |}.

Fixpoint callEach_io (io : Event -> option Exn) (hs : list Handler)
  (record : LogRecord) : M unit :=
  match hs with
  | [] => ret tt
  | h :: hs' =>
      (if (h_level h <=? r_levelno record)%nat then emit_io io h record
       else ret tt) ;;
      callEach_io io hs' record
  end.

(** [Logger.callHandlers] for a logger whose parent is the root logger and
    which passes its records on ([propagate] is true): the handlers of
    the logger, then the handlers [root] of the root logger, and
    [lastResort] when there is none at all. *)
Definition callHandlers_io (io : Event -> option Exn) (root : list Handler)
  (lg : Logger) (record : LogRecord) : M unit :=
  match l_handlers lg ++ root with
  | [] =>
      if (h_level lastResort <=? r_levelno record)%nat
      then emit_io io lastResort record else ret tt
  | hs => callEach_io io hs record
  end.

(** The same where nothing is refused and the root logger has no
    handler. *)
Definition sink_write (k : Sink) (data : pystr) : M unit :=
  sink_write_io accepts_all k data.
Definition sink_flush (k : Sink) : M unit := sink_flush_io accepts_all k.
Definition handleError (record : LogRecord) : M unit :=
  handleError_io accepts_all record.
Definition emit (h : Handler) (record : LogRecord) : M unit :=
  emit_io accepts_all h record.
Definition callEach (hs : list Handler) (record : LogRecord) : M unit :=
  callEach_io accepts_all hs record.
Definition callHandlers (lg : Logger) (record : LogRecord) : M unit :=
  callHandlers_io accepts_all [] lg record.

Definition getEffectiveLevel (lg : Logger) : nat :=
  if (l_level lg =? NOTSET)%nat then root_level else l_level lg.

Definition isEnabledFor (lg : Logger) (level : nat) : bool :=
  if (level <=? manager_disable)%nat then false
  else (getEffectiveLevel lg <=? level)%nat.

Definition fresh_logger : Logger :=
  {| l_level := NOTSET; l_handlers := [] |}.

(** [logging.getLogger(name)]: the logger of that name, created on first
    use and shared afterwards; the name stands for the object. *)
Definition getLogger (name : pystr) : M pystr :=
  reg <- get_registry ;;
  match reg !! name with
  | Some _ => ret name
  | None => put_registry (<[name := fresh_logger]> reg) ;; ret name
  end.

Definition the_logger (reg : gmap pystr Logger) (name : pystr) : Logger :=
  default fresh_logger (reg !! name).

Definition setLevel (logger : pystr) (level : nat) : M unit :=
  reg <- get_registry ;;
  put_registry
    (<[logger := {| l_level := level;
                    l_handlers := l_handlers (the_logger reg logger) |}]>
       reg).

(** [Logger.addHandler]: every handler object is a new one, so it is not
    yet among the logger's handlers. *)
Definition addHandler (logger : pystr) (h : Handler) : M unit :=
  reg <- get_registry ;;
  put_registry
    (<[logger := {| l_level := l_level (the_logger reg logger);
                    l_handlers := l_handlers (the_logger reg logger) ++ [h]
                 |}]>
       reg).

(** [Logger.log(level, msg)] *)
Definition log_io (io : Event -> option Exn) (root : list Handler)
  (logger : pystr) (level : nat) (msg : pystr) : M unit :=
  reg <- get_registry ;;
  let lg := the_logger reg logger in
  if isEnabledFor lg level then
    callHandlers_io io root lg
      {| r_name := logger; r_levelno := level; r_message := msg |}
  else ret tt.

Definition info_io (io : Event -> option Exn) (root : list Handler)
  (logger : pystr) (msg : pystr) := log_io io root logger INFO msg.
Definition critical_io (io : Event -> option Exn) (root : list Handler)
  (logger : pystr) (msg : pystr) := log_io io root logger CRITICAL msg.

(** The same where nothing is refused and the root logger has no
    handler. *)
Definition log (logger : pystr) (level : nat) (msg : pystr) : M unit :=
  log_io accepts_all [] logger level msg.

Definition debug (logger : pystr) (msg : pystr) := log logger DEBUG msg.
Definition info (logger : pystr) (msg : pystr) := log logger INFO msg.
Definition warning (logger : pystr) (msg : pystr) := log logger WARNING msg.
Definition error (logger : pystr) (msg : pystr) := log logger ERROR msg.
Definition critical (logger : pystr) (msg : pystr) :=
  log logger CRITICAL msg.

(** [logging.StreamHandler()]: the stream is [sys.stderr]. *)
Definition StreamHandler : Handler :=
  {| h_sink := ToStream Stderr; h_level := NOTSET; h_formatter := None |}.

(** [logging.FileHandler(path)]: opens the file for appending, at once. *)
Definition FileHandler_io (io : Event -> option Exn) (path : pystr) :
  M Handler :=
  attempt io (EOpen path (lit "a")) ;;
  ret {| h_sink := ToFile path; h_level := NOTSET; h_formatter := None |}.

Definition FileHandler (path : pystr) : M Handler :=
  FileHandler_io accepts_all path.

Definition Handler_setFormatter (h : Handler) (fmt : list FmtPiece) :
  Handler :=
  {| h_sink := h_sink h; h_level := h_level h; h_formatter := Some fmt |}.

Definition Handler_setLevel (h : Handler) (level : nat) : Handler :=
  {| h_sink := h_sink h; h_level := level; h_formatter := h_formatter h |}.

End logging.

(** The logger's name, ['E•volver']. *)
Definition evolver : pystr := 69 :: 8226 :: lit "volver".

(** ** [setup_logger_mpi] *)

Definition setup_logger_mpi_io (io : Event -> option Exn)
  (root : list Handler) (comm : Comm) (root_priority : nat) : M pystr :=
  let rank := rank comm in
  let root_process_log_level := logging.INFO in
  logger <- logging.getLogger evolver ;;
  logging.setLevel logger
    (if (rank =? 0)%nat then root_process_log_level else logging.CRITICAL) ;;
  let console_handler := logging.StreamHandler in
  file_handler <- logging.FileHandler_io io (lit "evolution.log") ;;
  let formatter :=
    [FAsctime; FLit (lit " - "); FName; FLit (lit " - "); FLevelname;
     FLit (lit " - "); FMessage] in
  let file_handler := logging.Handler_setFormatter file_handler formatter in
  let console_handler :=
    logging.Handler_setFormatter console_handler formatter in
  let file_handler :=
    logging.Handler_setLevel file_handler
      (if (rank =? 0)%nat then root_process_log_level else logging.CRITICAL) in
  let console_handler :=
    logging.Handler_setLevel console_handler
      (if (rank =? 0)%nat then root_process_log_level else logging.CRITICAL) in
  logging.addHandler logger console_handler ;;
  logging.addHandler logger file_handler ;;
  logging.info_io io root logger
    (lit "The root process spawning an evolution computation (rank 0)") ;;
  logging.info_io io root logger
    (lit "This is process " ++ str_of_nat rank ++ lit " reporting") ;;
  env <- ask ;;
  logging.critical_io io root logger
    (lit "DOLFINx version: " ++ dolfinx_version env ++
     lit " based on GIT commit: " ++ dolfinx_git_commit_hash env ++
     lit " of https://github.com/FEniCS/dolfinx/") ;;
  ret logger.

(** [setup_logger_mpi] where nothing is refused and the root logger has no
    handler. *)
Definition setup_logger_mpi (comm : Comm) (root_priority : nat) : M pystr :=
  setup_logger_mpi_io accepts_all [] comm root_priority.

(** ** [ResultsStorage]: the file system and the archive library *)

(** [with open(path, mode) as file: body]; the path stands for the file. *)
Definition with_open {A} (io : Event -> option Exn) (path mode : pystr)
  (body : pystr -> M A) : M A :=
  attempt io (EOpen path mode) ;;
  try_finally (body path) (attempt io (EClose path)).

Definition yaml_dump (io : Event -> option Exn) (data : PyVal)
  (file : pystr) : M unit :=
  attempt io (EYamlDump file data).

Definition json_dump (io : Event -> option Exn)
  (data : gmap pystr (list Sample)) (file : pystr) : M unit :=
  attempt io (EJsonDump file data).

(** [with XDMFFile(comm, path, mode, encoding=enc) as file: body] *)
Definition with_XDMFFile {A} (io : Event -> option Exn) (comm : Comm)
  (path mode : pystr) (enc : Encoding) (body : pystr -> M A) : M A :=
  attempt io (EXdmfOpen path mode enc) ;;
  try_finally (body path) (attempt io (EXdmfClose path)).

Definition write_mesh (io : Event -> option Exn) (file : pystr) (m : Mesh) :
  M unit :=
  attempt io (EXdmfWriteMesh file m).

Definition write_function (io : Event -> option Exn) (file : pystr)
  (f : Function) (t : Sample) : M unit :=
  attempt io (EXdmfWriteFunction file f t).

Module ResultsStorage.

Record t := { comm : Comm; prefix : pystr }.

Definition parameters_path (self : t) : pystr :=
  prefix self ++ lit "/parameters.yaml".
Definition archive_path (self : t) : pystr :=
  prefix self ++ lit "/simulation_results.xdmf".
Definition time_data_path (self : t) : pystr :=
  prefix self ++ lit "/time_data.json".

(** [store_results], with what the file system and the archive library
    refuse. *)
Definition store_results_io (io : Event -> option Exn) (self : t)
  (parameters : PyVal) (history_data : gmap pystr (list Sample))
  (state : gmap pystr Function) : M unit :=
  load <- getitem history_data (lit "load") ;;
  t <- getitem_last load ;;
  u <- getitem state (lit "u") ;;
  alpha <- getitem state (lit "alpha") ;;
  (if (rank (comm self) =? 0)%nat then
     with_open io (parameters_path self) (lit "w")
       (fun file => yaml_dump io parameters file)
   else ret tt) ;;
  with_XDMFFile io (comm self) (archive_path self) (lit "w") HDF5
    (fun file =>
       write_mesh io file (mesh (function_space u)) ;;
       write_function io file u t ;;
       write_function io file alpha t) ;;
  (if (rank (comm self) =? 0)%nat then
     with_open io (time_data_path self) (lit "w")
       (fun file => json_dump io history_data file)
   else ret tt).

(** [store_results] where nothing is refused. *)
Definition store_results (self : t) (parameters : PyVal)
  (history_data : gmap pystr (list Sample))
  (state : gmap pystr Function) : M unit :=
  store_results_io accepts_all self parameters history_data state.

End ResultsStorage.

(** ** Observations on a list of I/O operations *)

Definition count (p : Event -> bool) (evs : list Event) : nat :=
  length (List.filter p evs).

(** [open(path, 'w')] *)
Definition opens_for_writing (path : pystr) (e : Event) : bool :=
  match e with
  | EOpen p m => bool_decide (p = path) && bool_decide (m = lit "w")
  | _ => false
  end.


(** The operations on the XDMF archive, which every process of the
    communicator has to issue. *)
Definition is_archive_op (e : Event) : bool :=
  match e with
  | EXdmfOpen _ _ _ | EXdmfWriteMesh _ _ | EXdmfWriteFunction _ _ _
  | EXdmfClose _ => true
  | _ => false
  end.

Definition collective (evs : list Event) : list Event :=
  List.filter is_archive_op evs.

Definition is_mesh_write (e : Event) : bool :=
  match e with EXdmfWriteMesh _ _ => true | _ => false end.



(** The same program run by the [n] processes of a communicator, each with
    its own rank. *)
Definition spmd {A} (n : nat) (prog : Comm -> M A) (env : Env)
  (reg : gmap pystr Logger) :
  list (Result A * gmap pystr Logger * list Event) :=
  map (fun r => prog {| rank := r; size := n |} env reg) (seq 0 n).

Definition total {A} (f : list Event -> nat)
  (outs : list (Result A * gmap pystr Logger * list Event)) : nat :=
  sum_list (map (fun o => f (events o)) outs).

(** What [store_results] issues when nothing raises. *)
Definition stored (self : ResultsStorage.t) (parameters : PyVal)
  (history_data : gmap pystr (list Sample)) (u alpha : Function)
  (t : Sample) : list Event :=
  (if (rank (ResultsStorage.comm self) =? 0)%nat then
     [EOpen (ResultsStorage.parameters_path self) (lit "w");
      EYamlDump (ResultsStorage.parameters_path self) parameters;
      EClose (ResultsStorage.parameters_path self)]
   else []) ++
  [EXdmfOpen (ResultsStorage.archive_path self) (lit "w") HDF5;
   EXdmfWriteMesh (ResultsStorage.archive_path self)
     (mesh (function_space u));
   EXdmfWriteFunction (ResultsStorage.archive_path self) u t;
   EXdmfWriteFunction (ResultsStorage.archive_path self) alpha t;
   EXdmfClose (ResultsStorage.archive_path self)] ++
  (if (rank (ResultsStorage.comm self) =? 0)%nat then
     [EOpen (ResultsStorage.time_data_path self) (lit "w");
      EJsonDump (ResultsStorage.time_data_path self) history_data;
      EClose (ResultsStorage.time_data_path self)]
   else []).

(** The inputs under which no statement of [store_results] raises. *)
Definition well_formed (history_data : gmap pystr (list Sample))
  (state : gmap pystr Function) (t : Sample) (u alpha : Function) : Prop :=
  (exists load, history_data !! lit "load" = Some load /\ last load = Some t)
  /\ state !! lit "u" = Some u
  /\ state !! lit "alpha" = Some alpha.

(** ** Inputs used in the examples *)

Module Ex.

Definition env : Env :=
  {| broken := []; flush_broken := [];
     asctime := lit "2024-01-01 00:00:00,000";
     dolfinx_version := lit "0.7.2";
     dolfinx_git_commit_hash := lit "unknown" |}.

Definition env_broken_stderr : Env :=
  {| broken := [Stderr]; flush_broken := []; asctime := asctime env;
     dolfinx_version := dolfinx_version env;
     dolfinx_git_commit_hash := dolfinx_git_commit_hash env |}.

Definition rank0 : Comm := {| rank := 0; size := 2 |}.
Definition rank1 : Comm := {| rank := 1; size := 2 |}.

Definition M0 : Mesh := {| mesh_id := 0 |}.
Definition M1 : Mesh := {| mesh_id := 1 |}.

Definition field_u : Function :=
  {| function_space := {| mesh := M0 |}; name := lit "u" |}.
Definition field_alpha : Function :=
  {| function_space := {| mesh := M0 |}; name := lit "alpha" |}.
(** A damage field living on another mesh. *)
Definition field_alpha' : Function :=
  {| function_space := {| mesh := M1 |}; name := lit "alpha" |}.

(** [{"load": [0.0, 0.1, 0.2]}] *)
Definition history : gmap pystr (list Sample) :=
  {[ lit "load" := [0; 1 # 10; 1 # 5]%Q ]}.

Definition state : gmap pystr Function :=
  <[lit "u" := field_u]> {[ lit "alpha" := field_alpha ]}.


Definition state_two_meshes : gmap pystr Function :=
  <[lit "u" := field_u]> {[ lit "alpha" := field_alpha' ]}.

(** [{"general": {"dim": 2}}] *)
Definition parameters : PyVal :=
  VDict [(lit "general", VDict [(lit "dim", VInt 2)])].

Definition store (c : Comm) : ResultsStorage.t :=
  {| ResultsStorage.comm := c; ResultsStorage.prefix := lit "out" |}.

End Ex.

(** A computation that returns, whatever it finds, and leaves the
    registry of loggers as it was. *)
Definition harmless (m : M unit) : Prop :=
  forall env reg, exists evs, m env reg = (Ok tt, reg, evs).

(** A computation that leaves the registry of loggers as it was, returns
    [a] when it returns, and raises only what the report of
    [Handler.handleError] on standard error was refused with, when that is
    no [OSError]. *)
Definition guarded {A} (io : Event -> option Exn) (a : A) (m : M A) : Prop :=
  forall env reg,
    (exists evs, m env reg = (Ok a, reg, evs))
    \/ (exists e evs,
          m env reg = (Raise e, reg, evs)
          /\ is_OSError e = false
          /\ (io (EWrite Stderr logging.logging_error) = Some e
              \/ io (ETraceback Stderr) = Some e)).

(** The logger ['E•volver'] as [setup_logger_mpi] leaves it. *)
Definition configured (c : Comm) (reg : gmap pystr Logger) : Logger :=
  let level :=
    if (rank c =? 0)%nat then logging.INFO else logging.CRITICAL in
  let formatter :=
    Some [FAsctime; FLit (lit " - "); FName; FLit (lit " - "); FLevelname;
          FLit (lit " - "); FMessage] in
  {| l_level := level;
     l_handlers :=
       l_handlers (logging.the_logger reg evolver) ++
       [{| h_sink := ToStream Stderr; h_level := level;
           h_formatter := formatter |};
        {| h_sink := ToFile (lit "evolution.log"); h_level := level;
           h_formatter := formatter |}] |}.

(** ** Observations on strings *)

Definition all_space (s : pystr) : bool := forallb isspace s.

(** The string is empty or begins with something else than white space. *)
Definition starts_clean (s : pystr) : bool :=
  match s with
  | [] => true
  | c :: _ => negb (isspace c)
  end.

Definition ends_clean (s : pystr) : bool := starts_clean (rev s).

(** The six methods of [ColorPrint], each with its colour sequence and the
    stream it writes to. *)
Definition color_methods :
  list (pystr * Stream * (Comm -> pystr -> pystr -> M unit)) :=
  [(lit "[1;31m", Stderr, ColorPrint.print_fail);
   (lit "[1;32m", Stdout, ColorPrint.print_pass);
   (lit "[1;33m", Stderr, ColorPrint.print_warn);
   (lit "[1;34m", Stdout, ColorPrint.print_info);
   (lit "[1;36m", Stdout, ColorPrint.print_color);
   (lit "[1;37m", Stdout, ColorPrint.print_bold)].

(** The text a method writes for [message]. *)
Definition colored (colour message end_ : pystr) : pystr :=
  ESC :: colour ++ message ++ ESC :: lit "[0m" ++ end_.

(** ** Observations on files *)

(** Every file or archive that is opened is closed again, no second one is
    opened meanwhile, and what is written goes to the one that is open.
    [cur] is the path that is open, if any. *)
Fixpoint bracketed (cur : option pystr) (evs : list Event) : bool :=
  match evs with
  | [] => bool_decide (cur = None)
  | e :: evs' =>
      match e with
      | EOpen p _ | EXdmfOpen p _ _ =>
          bool_decide (cur = None) && bracketed (Some p) evs'
      | EClose p | EXdmfClose p =>
          bool_decide (cur = Some p) && bracketed None evs'
      | EYamlDump p _ | EJsonDump p _ | EFileWrite p _ | EFileFlush p
      | EXdmfWriteMesh p _ | EXdmfWriteFunction p _ _ =>
          bool_decide (cur = Some p) && bracketed cur evs'
      | EWrite _ _ | EFlush _ | ETraceback _ => bracketed cur evs'
      end
  end.

(** What one operation does to the files: each path holds the write
    operations made on it since it was last emptied.  Opening with mode
    ['w'] empties (or creates) the file, any other mode keeps what is there.
    A file is known by the path the code opens it with, and the path of an
    archive stands for the XDMF file together with the HDF5 file the
    library keeps beside it. *)
Definition apply_event (fs : gmap pystr (list Event)) (e : Event) :
  gmap pystr (list Event) :=
  match e with
  | EOpen p m | EXdmfOpen p m _ =>
      if bool_decide (m = lit "w") then <[p := []]> fs
      else <[p := default [] (fs !! p)]> fs
  | EYamlDump p _ | EJsonDump p _ | EFileWrite p _
  | EXdmfWriteMesh p _ | EXdmfWriteFunction p _ _ =>
      <[p := default [] (fs !! p) ++ [e]]> fs
  | _ => fs
  end.

Definition replay (evs : list Event) (fs : gmap pystr (list Event)) :
  gmap pystr (list Event) :=
  foldl apply_event fs evs.

(** ** Observations on the logger *)

(** [Formatter.format] as a function of the clock. *)
Definition formatted (env : Env) (fmt : option (list FmtPiece))
  (record : logging.LogRecord) : pystr :=
  concat (map (fun p =>
                 match p with
                 | FLit s => s
                 | FAsctime => asctime env
                 | FName => logging.r_name record
                 | FLevelname => logging.getLevelName (logging.r_levelno record)
                 | FMessage => logging.r_message record
                 end)
              (default [FMessage] fmt)).

(** What [Handler.handleError] issues. *)
Definition reported (env : Env) : list Event :=
  if bool_decide (Stderr ∈ broken env) then []
  else [EWrite Stderr (lit "--- Logging error ---" ++ [10]);
        ETraceback Stderr].

(** What one handler issues for a record. *)
Definition emitted (env : Env) (h : Handler) (record : logging.LogRecord) :
  list Event :=
  let line := formatted env (h_formatter h) record ++ logging.terminator in
  match h_sink h with
  | ToStream s =>
      if negb (accepts_text s line) then reported env
      else if bool_decide (s ∈ broken env) then reported env
      else if bool_decide (s ∈ flush_broken env)
           then EWrite s line :: reported env
           else [EWrite s line; EFlush s]
  | ToFile path => [EFileWrite path line; EFileFlush path]
  end.

(** What a list of handlers issues for a record, each handler according to
    its own level. *)
Definition dispatched (env : Env) (hs : list Handler)
  (record : logging.LogRecord) : list Event :=
  concat (map (fun h =>
                 if (h_level h <=? logging.r_levelno record)%nat
                 then emitted env h record else [])
              hs).

(** The level [setup_logger_mpi] gives to the logger and to its handlers. *)
Definition threshold (c : Comm) : nat :=
  if (rank c =? 0)%nat then logging.INFO else logging.CRITICAL.

(** The two handlers one call of [setup_logger_mpi] adds. *)
Definition evolver_handlers (c : Comm) : list Handler :=
  let formatter :=
    Some [FAsctime; FLit (lit " - "); FName; FLit (lit " - "); FLevelname;
          FLit (lit " - "); FMessage] in
  [{| h_sink := ToStream Stderr; h_level := threshold c;
      h_formatter := formatter |};
   {| h_sink := ToFile (lit "evolution.log"); h_level := threshold c;
      h_formatter := formatter |}].

(** The three messages of [setup_logger_mpi]. *)
Definition spawning_message : pystr :=
  lit "The root process spawning an evolution computation (rank 0)".
Definition reporting_message (c : Comm) : pystr :=
  lit "This is process " ++ str_of_nat (rank c) ++ lit " reporting".
Definition version_message (env : Env) : pystr :=
  lit "DOLFINx version: " ++ dolfinx_version env ++
  lit " based on GIT commit: " ++ dolfinx_git_commit_hash env ++
  lit " of https://github.com/FEniCS/dolfinx/".

(** A record is appended to [evolution.log]. *)
Definition is_log_record (e : Event) : bool :=
  match e with
  | EFileWrite p _ => bool_decide (p = lit "evolution.log")
  | _ => false
  end.

(** [m] called [k] times in a row. *)
Fixpoint times {A} (k : nat) (m : M A) : M unit :=
  match k with
  | O => ret tt
  | S k' => m ;; times k' m
  end.

(** ** [table_timing_data] *)

(** The tuple [dolfinx.common.timing] returns for a task:
    [(reps, wall tot, usr, sys)]. *)
Abbreviation Timing := (nat * Q * Q * Q)%type.

Module pd.

(** A [pandas.DataFrame] built from a list of rows: the column labels, the
    row labels and the rows. *)
Record DataFrame := {
  columns : list pystr;
  index : list pystr;
  data : list Timing
}.

(** [df.loc[[label]]]: the rows that carry the label. *)
Definition loc (df : DataFrame) (label : pystr) : list Timing :=
  map snd
    (List.filter (fun labelled => bool_decide (labelled.1 = label))
       (zip (index df) (data df))).

End pd.

Definition timing_tasks : list pystr :=
  [lit "~First Order: AltMin solver";
   lit "~First Order: AltMin-Damage solver";
   lit "~First Order: AltMin-Elastic solver";
   lit "~First Order: Hybrid solver";
   lit "~Second Order: Bifurcation";
   lit "~Second Order: Cone Project";
   lit "~Second Order: Stability";
   lit "~Postprocessing and Vis";
   lit "~Computation Experiment"].

Section Timing.

(** [dolfinx.common.timing]; [None] where it raises, having no timing of
    that name. *)
Variable timing : pystr -> option Timing.

(** [for task in tasks: timing_data.append(timing(task))] *)
Fixpoint collect_timings (tasks : list pystr) (timing_data : list Timing) :
  option (list Timing) :=
  match tasks with
  | [] => Some timing_data
  | task :: tasks' =>
      match timing task with
      | Some row => collect_timings tasks' (timing_data ++ [row])
      | None => None
      end
  end.

Definition table_timing_data : option pd.DataFrame :=
  match collect_timings timing_tasks [] with
  | Some timing_data =>
      Some {| pd.columns :=
                [lit "reps"; lit "wall tot"; lit "usr"; lit "sys"];
              pd.index := timing_tasks;
              pd.data := timing_data |}
  | None => None
  end.

End Timing.

(** ** [Visualization] *)

(** [print(text)]: the text, then the line end, on standard output.  The
    text is taken to be one that standard output can encode. *)
Definition print (text : pystr) : M unit :=
  buffer_write Stdout text ;; buffer_write Stdout [10].

Module Visualization.

Record t := { prefix : pystr }.

Definition table_path (self : t) (name : pystr) : pystr :=
  prefix self ++ lit "/" ++ name ++ lit ".json".

Section Tables.

(** What pandas and [json] do is taken as given. *)
Variable DataFrame : Type.
(** [df.drop(labels, axis=1)], which may raise *)
Variable df_drop : DataFrame -> list pystr -> Result DataFrame.
(** [str(df)] *)
Variable df_str : DataFrame -> pystr.
(** [data.to_json()], which may raise: pandas refuses a table whose row
    labels are not unique *)
Variable to_json : DataFrame -> Result pystr.
(** the JSON text of a string, as [json.dump] writes it *)
Variable json_text : pystr -> pystr.

Definition visualise_results (self : t) (df : DataFrame)
  (drop : list pystr) : M unit :=
  match df_drop df drop with
  | Ok shown => print (df_str shown)
  | Raise e => raise e
  end.

(** [comm] is [MPI.COMM_WORLD].  The file is opened before
    [data.to_json()] is evaluated, and closed by the last statement: there
    is no [with] and no [try]. *)
Definition save_table (io : Event -> option Exn) (comm : Comm) (self : t)
  (data : DataFrame) (name : pystr) : M unit :=
  if (rank comm =? 0)%nat then
    let a_file := table_path self name in
    attempt io (EOpen a_file (lit "w")) ;;
    text <- of_result (to_json data) ;;
    attempt io (EFileWrite a_file (json_text text)) ;;
    attempt io (EClose a_file)
  else ret tt.

End Tables.

End Visualization.

(** The table is written on standard output. *)
Definition prints (text : pystr) (e : Event) : bool :=
  match e with
  | EWrite Stdout s => bool_decide (s = text)
  | _ => false
  end.

Definition is_file_op (e : Event) : bool :=
  match e with
  | EWrite _ _ | EFlush _ | ETraceback _ => false
  | _ => true
  end.

(** Stand-ins for pandas and [json] in the examples. *)
Module ExTables.

(** Dropping no column gives the table back; this stand-in knows no
    column to drop. *)
Definition df_drop (df : pd.DataFrame) (labels : list pystr) :
  Result pd.DataFrame :=
  match labels with
  | [] => Ok df
  | label :: _ => Raise (KeyError label)
  end.
Definition df_str (df : pd.DataFrame) : pystr := concat (pd.index df).
Definition to_json (df : pd.DataFrame) : Result pystr :=
  if bool_decide (NoDup (pd.index df)) then Ok (lit "{}")
  else Raise ValueError.
Definition json_text (s : pystr) : pystr := 34 :: s ++ [34].

Definition table : pd.DataFrame :=
  {| pd.columns := [lit "reps"; lit "wall tot"; lit "usr"; lit "sys"];
     pd.index := timing_tasks;
     pd.data := map (fun task => (length task, 1 # 2, 1 # 4, 1 # 8)%Q)
                  timing_tasks |}.

(** A table with every row label twice. *)
Definition table_twice : pd.DataFrame :=
  {| pd.columns := pd.columns table;
     pd.index := pd.index table ++ pd.index table;
     pd.data := pd.data table ++ pd.data table |}.

Definition viz : Visualization.t := {| Visualization.prefix := lit "out" |}.

End ExTables.

(** The statements of [store_results] that follow its four lookups. *)
Definition after_lookups (io : Event -> option Exn)
  (self : ResultsStorage.t) (parameters : PyVal)
  (history_data : gmap pystr (list Sample)) (u alpha : Function)
  (t : Sample) : M unit :=
  (if (rank (ResultsStorage.comm self) =? 0)%nat then
     with_open io (ResultsStorage.parameters_path self) (lit "w")
       (fun file => yaml_dump io parameters file)
   else ret tt) ;;
  with_XDMFFile io (ResultsStorage.comm self)
    (ResultsStorage.archive_path self) (lit "w") HDF5
    (fun file =>
       write_mesh io file (mesh (function_space u)) ;;
       write_function io file u t ;;
       write_function io file alpha t) ;;
  (if (rank (ResultsStorage.comm self) =? 0)%nat then
     with_open io (ResultsStorage.time_data_path self) (lit "w")
       (fun file => json_dump io history_data file)
   else ret tt).

(** Nothing of what a call would issue is refused. *)
Definition undisturbed (io : Event -> option Exn) (evs : list Event) : Prop :=
  forall e, In e evs -> io e = None.

(** File systems used in the examples. *)
Module ExIO.


(** The archive library fails when the second field is written. *)
Definition fails_on_alpha (e : Event) : option Exn :=
  match e with
  | EXdmfWriteFunction path f _ =>
      if bool_decide (name f = lit "alpha") then Some (OSErrorOn path)
      else None
  | _ => None
  end.


(** Standard error is closed: every operation on it raises [ValueError]. *)
Definition closed_stderr (e : Event) : option Exn :=
  match e with
  | EWrite Stderr _ | EFlush Stderr | ETraceback Stderr => Some ValueError
  | _ => None
  end.

(** [evolution.log] exists and may not be written. *)
Definition read_only_log (e : Event) : option Exn :=
  match e with
  | EOpen path _ =>
      if bool_decide (path = lit "evolution.log")
      then Some (OSErrorOn path) else None
  | _ => None
  end.

(** [{"load": []}] *)
Definition empty_history : gmap pystr (list Sample) :=
  {[ lit "load" := [] ]}.

End ExIO.

(** * Properties *)

(** ** The monad *)

Lemma bind_ok {A B} (m : M A) (k : A -> M B) env reg a reg1 ev1 :
  m env reg = (Ok a, reg1, ev1) ->
  bind m k env reg =
    (outcome (k a env reg1), registry_of (k a env reg1),
     ev1 ++ events (k a env reg1)).
Proof.
  intros H. unfold bind. rewrite H.
  destruct (k a env reg1) as [[r reg2] ev2]. reflexivity.
Qed.

Lemma bind_raise {A B} (m : M A) (k : A -> M B) env reg e reg1 ev1 :
  m env reg = (Raise e, reg1, ev1) ->
  bind m k env reg = (Raise e, reg1, ev1).
Proof. intros H. unfold bind. rewrite H. reflexivity. Qed.

(** ** [store_results] *)

Section StoreResults.

Variable self : ResultsStorage.t.
Variable parameters : PyVal.
Variable history_data : gmap pystr (list Sample).
Variable state : gmap pystr Function.
Variable env : Env.
Variable reg : gmap pystr Logger.

Let call := ResultsStorage.store_results self parameters history_data state
              env reg.

Lemma store_results_well_formed t u alpha :
  well_formed history_data state t u alpha ->
  call = (Ok tt, reg, stored self parameters history_data u alpha t).
Proof.
  intros [(load & Hload & Hlast) [Hu Halpha]].
  unfold call, ResultsStorage.store_results,
    ResultsStorage.store_results_io, stored.
  unfold bind at 1. unfold getitem at 1. rewrite Hload. cbn [ret].
  unfold bind at 1. unfold getitem_last. rewrite Hlast. cbn [ret].
  unfold bind at 1. unfold getitem at 1. rewrite Hu. cbn [ret].
  unfold bind at 1. unfold getitem at 1. rewrite Halpha. cbn [ret].
  destruct (rank (ResultsStorage.comm self) =? 0)%nat; reflexivity.
Qed.

(** Any other input makes the call raise on its first four lines, before
    it has issued anything. *)
Lemma store_results_total :
  (exists t u alpha, well_formed history_data state t u alpha)
  \/ (exists e, call = (Raise e, reg, [])).
Proof.
  unfold call, ResultsStorage.store_results,
    ResultsStorage.store_results_io, well_formed.
  destruct (history_data !! lit "load") as [load|] eqn:Hload.
  2:{ right. eexists. unfold bind at 1, getitem at 1. rewrite Hload.
      reflexivity. }
  destruct (last load) as [t|] eqn:Hlast.
  2:{ right. eexists. unfold bind at 1, getitem at 1. rewrite Hload.
      cbn [ret]. unfold bind at 1, getitem_last. rewrite Hlast.
      reflexivity. }
  destruct (state !! lit "u") as [u|] eqn:Hu.
  2:{ right. eexists. unfold bind at 1, getitem at 1. rewrite Hload.
      cbn [ret]. unfold bind at 1, getitem_last. rewrite Hlast.
      cbn [ret]. unfold bind at 1, getitem at 1. rewrite Hu.
      reflexivity. }
  destruct (state !! lit "alpha") as [alpha|] eqn:Halpha.
  2:{ right. eexists. unfold bind at 1, getitem at 1. rewrite Hload.
      cbn [ret]. unfold bind at 1, getitem_last. rewrite Hlast.
      cbn [ret]. unfold bind at 1, getitem at 1. rewrite Hu.
      cbn [ret]. unfold bind at 1, getitem at 1. rewrite Halpha.
      reflexivity. }
  left. exists t, u, alpha. eauto.
Qed.

End StoreResults.

(** *** Counting on the issued operations *)




(** Go through the operations that stand before a given one. *)
Ltac walk H l :=
  destruct l as [|? l]; cbn [app] in H;
  [ try discriminate H
  | first [ discriminate H | injection H as <- H; walk H l ] ].

Section Counting.

Variable self : ResultsStorage.t.
Variable parameters : PyVal.
Variable history_data : gmap pystr (list Sample).
Variables u alpha : Function.
Variable t : Sample.

Let evs := stored self parameters history_data u alpha t.





Lemma stored_collective :
  collective evs =
    [EXdmfOpen (ResultsStorage.archive_path self) (lit "w") HDF5;
     EXdmfWriteMesh (ResultsStorage.archive_path self)
       (mesh (function_space u));
     EXdmfWriteFunction (ResultsStorage.archive_path self) u t;
     EXdmfWriteFunction (ResultsStorage.archive_path self) alpha t;
     EXdmfClose (ResultsStorage.archive_path self)].
Proof.
  unfold evs, stored, collective.
  destruct (rank (ResultsStorage.comm self) =? 0)%nat; reflexivity.
Qed.


Lemma stored_mesh_once : count is_mesh_write evs = 1%nat.
Proof.
  unfold evs, stored, count.
  destruct (rank (ResultsStorage.comm self) =? 0)%nat; reflexivity.
Qed.

(** Whatever stands before a field entry contains the write of the mesh,
    and the entry carries the tag [t]. *)
Lemma stored_field_after_mesh l1 p f t' l2 :
  evs = l1 ++ EXdmfWriteFunction p f t' :: l2 ->
  t' = t /\
  In (EXdmfWriteMesh (ResultsStorage.archive_path self)
        (mesh (function_space u))) l1.
Proof.
  unfold evs, stored.
  destruct (rank (ResultsStorage.comm self) =? 0)%nat; cbn [app];
    intros H; walk H l1;
    injection H as _ _ <- _;
    (split; [reflexivity | cbn; tauto]).
Qed.

End Counting.

(** *** Several processes *)

Lemma sum_list_zero (g : nat -> nat) (start len : nat) :
  (forall r, (1 <= r)%nat -> g r = 0%nat) ->
  (1 <= start)%nat ->
  sum_list (map g (seq start len)) = 0%nat.
Proof.
  intros Hg. revert start. induction len as [|len IH]; intros start Hs.
  - reflexivity.
  - cbn. rewrite (Hg start Hs), (IH (S start)) by lia. reflexivity.
Qed.

Lemma total_spmd_rank0 {A} (f : list Event -> nat) (prog : Comm -> M A)
  (n : nat) env reg :
  (forall c, rank c <> 0%nat -> f (events (prog c env reg)) = 0%nat) ->
  total f (spmd (S n) prog env reg)
  = f (events (prog {| rank := 0; size := S n |} env reg)).
Proof.
  intros Hf. unfold total, spmd. rewrite map_map. cbn [seq map sum_list].
  rewrite (sum_list_zero
             (fun r => f (events (prog {| rank := r; size := S n |} env reg)))).
  - unfold id. lia.
  - intros r Hr. apply Hf. cbn. lia.
  - lia.
Qed.

Ltac example_well_formed :=
  split; [eexists; split; vm_compute; reflexivity
         | split; vm_compute; reflexivity].

(** *** [store_results] and what is refused *)

Section StoreResultsIO.

Variable io : Event -> option Exn.
Variable self : ResultsStorage.t.
Variable parameters : PyVal.
Variable history_data : gmap pystr (list Sample).
Variable state : gmap pystr Function.
Variable env : Env.
Variable reg : gmap pystr Logger.

Let call := ResultsStorage.store_results_io io self parameters history_data
              state env reg.

Lemma store_results_io_well_formed t u alpha :
  well_formed history_data state t u alpha ->
  call = after_lookups io self parameters history_data u alpha t env reg.
Proof.
  intros [(load & Hload & Hlast) [Hu Halpha]].
  unfold call, ResultsStorage.store_results_io.
  unfold bind at 1. unfold getitem at 1. rewrite Hload. cbn [ret].
  unfold bind at 1. unfold getitem_last. rewrite Hlast. cbn [ret].
  unfold bind at 1. unfold getitem at 1. rewrite Hu. cbn [ret].
  unfold bind at 1. unfold getitem at 1. rewrite Halpha. cbn [ret].
  destruct (after_lookups io self parameters history_data u alpha t env reg)
    as [[r reg'] evs] eqn:E.
  unfold after_lookups in E. rewrite E. reflexivity.
Qed.

Lemma store_results_io_total :
  (exists t u alpha, well_formed history_data state t u alpha)
  \/ (exists e, call = (Raise e, reg, [])).
Proof.
  unfold call, ResultsStorage.store_results_io, well_formed.
  destruct (history_data !! lit "load") as [load|] eqn:Hload.
  2:{ right. eexists. unfold bind at 1, getitem at 1. rewrite Hload.
      reflexivity. }
  destruct (last load) as [t|] eqn:Hlast.
  2:{ right. eexists. unfold bind at 1, getitem at 1. rewrite Hload.
      cbn [ret]. unfold bind at 1, getitem_last. rewrite Hlast.
      reflexivity. }
  destruct (state !! lit "u") as [u|] eqn:Hu.
  2:{ right. eexists. unfold bind at 1, getitem at 1. rewrite Hload.
      cbn [ret]. unfold bind at 1, getitem_last. rewrite Hlast.
      cbn [ret]. unfold bind at 1, getitem at 1. rewrite Hu.
      reflexivity. }
  destruct (state !! lit "alpha") as [alpha|] eqn:Halpha.
  2:{ right. eexists. unfold bind at 1, getitem at 1. rewrite Hload.
      cbn [ret]. unfold bind at 1, getitem_last. rewrite Hlast.
      cbn [ret]. unfold bind at 1, getitem at 1. rewrite Hu.
      cbn [ret]. unfold bind at 1, getitem at 1. rewrite Halpha.
      reflexivity. }
  left. exists t, u, alpha. eauto.
Qed.

Lemma well_formed_unique t u alpha t' u' alpha' :
  well_formed history_data state t u alpha ->
  well_formed history_data state t' u' alpha' ->
  t' = t /\ u' = u /\ alpha' = alpha.
Proof.
  intros [(l & Hl & Ht) [Hu Ha]] [(l' & Hl' & Ht') [Hu' Ha']].
  rewrite Hl in Hl'. injection Hl' as <-. rewrite Ht in Ht'.
  rewrite Hu in Hu'. rewrite Ha in Ha'.
  injection Ht' as <-. injection Hu' as <-. injection Ha' as <-. auto.
Qed.

End StoreResultsIO.

(** Every case of what [io] refuses, one operation after the other. *)
Ltac run_io io :=
  unfold after_lookups, with_open, with_XDMFFile, yaml_dump, json_dump,
    write_mesh, write_function, try_finally, bind, attempt;
  repeat match goal with
         | |- context [io ?e] => destruct (io e) eqn:?; cbn [raise tell ret]
         end.

Section AfterLookups.

Variable io : Event -> option Exn.
Variable self : ResultsStorage.t.
Variable parameters : PyVal.
Variable history_data : gmap pystr (list Sample).
Variables u alpha : Function.
Variable t : Sample.
Variable env : Env.
Variable reg : gmap pystr Logger.

Let rest := after_lookups io self parameters history_data u alpha t env reg.
Let all := stored self parameters history_data u alpha t.

(** A run that returns has issued everything. *)
Lemma after_lookups_returns : outcome rest = Ok tt -> rest = (Ok tt, reg, all).
Proof.
  unfold rest, all, stored.
  destruct (rank (ResultsStorage.comm self) =? 0)%nat eqn:Hr;
    unfold after_lookups; rewrite Hr; run_io io;
    unfold outcome; cbn [fst]; intros H; try discriminate H; reflexivity.
Qed.

Lemma after_lookups_undisturbed :
  undisturbed io all -> rest = (Ok tt, reg, all).
Proof.
  unfold rest, all, stored, undisturbed. intros H.
  destruct (rank (ResultsStorage.comm self) =? 0)%nat eqn:Hr;
    unfold after_lookups; rewrite Hr;
    unfold with_open, with_XDMFFile, yaml_dump, json_dump, write_mesh,
      write_function, try_finally, bind, attempt;
    rewrite !H by (cbn; tauto); reflexivity.
Qed.

(** The registry of loggers is not touched. *)
Lemma after_lookups_registry : registry_of rest = reg.
Proof.
  unfold rest.
  destruct (rank (ResultsStorage.comm self) =? 0)%nat eqn:Hr;
    unfold after_lookups; rewrite Hr; run_io io; reflexivity.
Qed.


Lemma after_lookups_bracketed :
  (forall p, io (EClose p) = None) ->
  (forall p, io (EXdmfClose p) = None) ->
  bracketed None (events rest) = true.
Proof.
  intros Hc Hx. unfold rest.
  destruct (rank (ResultsStorage.comm self) =? 0)%nat eqn:Hr;
    unfold after_lookups; rewrite Hr;
    unfold with_open, with_XDMFFile, yaml_dump, json_dump, write_mesh,
      write_function, try_finally, bind, attempt;
    rewrite ?Hc, ?Hx;
    repeat match goal with
           | |- context [io ?e] => destruct (io e) eqn:?; cbn [raise tell ret]
           end;
    cbn; rewrite ?bool_decide_eq_true_2 by reflexivity; reflexivity.
Qed.

Lemma after_lookups_mesh_at_most_once :
  (count is_mesh_write (events rest) <= 1)%nat.
Proof.
  unfold rest.
  destruct (rank (ResultsStorage.comm self) =? 0)%nat eqn:Hr;
    unfold after_lookups; rewrite Hr; run_io io; cbn; lia.
Qed.

Lemma after_lookups_field_after_mesh l1 p f t' l2 :
  events rest = l1 ++ EXdmfWriteFunction p f t' :: l2 ->
  t' = t /\
  In (EXdmfWriteMesh (ResultsStorage.archive_path self)
        (mesh (function_space u))) l1.
Proof.
  unfold rest.
  destruct (rank (ResultsStorage.comm self) =? 0)%nat eqn:Hr;
    unfold after_lookups; rewrite Hr; run_io io;
    unfold events; cbn [snd app]; intros H; walk H l1;
    injection H as _ _ <- _; (split; [reflexivity | cbn; tauto]).
Qed.


End AfterLookups.

(** *** The claims on [store_results] *)

(** C10. If [history_data] has no key ['load'], or its ['load'] series is
    empty, [store_results] raises on its first statement ([KeyError] or
    [IndexError]) and has issued no I/O operation at all: no parameters
    file, no archive, no [time_data.json] is created or modified. *)
Theorem store_results_bad_history_raises_first
  (self : ResultsStorage.t) (parameters : PyVal)
  (history_data : gmap pystr (list Sample)) (state : gmap pystr Function)
  (env : Env) (reg : gmap pystr Logger) :
  history_data !! lit "load" = None \/ history_data !! lit "load" = Some [] ->
  exists e,
    (e = KeyError (lit "load") \/ e = IndexError) /\
    ResultsStorage.store_results self parameters history_data state env reg
    = (Raise e, reg, []).
Proof.
  intros [H|H]; unfold ResultsStorage.store_results, ResultsStorage.store_results_io.
  - exists (KeyError (lit "load")). split; [now left|].
    unfold bind at 1, getitem at 1. rewrite H. reflexivity.
  - exists IndexError. split; [now right|].
    unfold bind at 1, getitem at 1. rewrite H. cbn [ret].
    unfold bind at 1. reflexivity.
Qed.

Lemma store_results_bad_history_witness :
  ((∅ : gmap pystr (list Sample)) !! lit "load" = None
   \/ (∅ : gmap pystr (list Sample)) !! lit "load" = Some [])
  /\ exists e,
      (e = KeyError (lit "load") \/ e = IndexError) /\
      ResultsStorage.store_results (Ex.store Ex.rank0) Ex.parameters ∅
        Ex.state Ex.env ∅
      = (Raise e, ∅, []).
Proof.
  split.
  - left. reflexivity.
  - apply store_results_bad_history_raises_first. left. reflexivity.
Defined.




(** C6, as the code has it.  With a ['load'] series ending in [t] and a
    state holding ['u'] and ['alpha'], and whatever the file system and
    the archive library refuse: the mesh is written at most once, and every
    field entry stands after the mesh write and is tagged [t].  A call
    that returns normally has written the mesh exactly once, as the second
    of its five archive operations. *)
Theorem store_results_mesh_once_before_fields
  (io : Event -> option Exn) (self : ResultsStorage.t) (parameters : PyVal)
  (history_data : gmap pystr (list Sample)) (state : gmap pystr Function)
  (env : Env) (reg : gmap pystr Logger) (t : Sample) (u alpha : Function) :
  well_formed history_data state t u alpha ->
  let call :=
    ResultsStorage.store_results_io io self parameters history_data state
      env reg in
  let written :=
    EXdmfWriteMesh (ResultsStorage.archive_path self)
      (mesh (function_space u)) in
  (count is_mesh_write (events call) <= 1)%nat
  /\ (forall l1 path f t' l2,
        events call = l1 ++ EXdmfWriteFunction path f t' :: l2 ->
        t' = t /\ In written l1)
  /\ (outcome call = Ok tt ->
      count is_mesh_write (events call) = 1%nat
      /\ collective (events call) =
           [EXdmfOpen (ResultsStorage.archive_path self) (lit "w") HDF5;
            written;
            EXdmfWriteFunction (ResultsStorage.archive_path self) u t;
            EXdmfWriteFunction (ResultsStorage.archive_path self) alpha t;
            EXdmfClose (ResultsStorage.archive_path self)]).
Proof.
  intros Hwf. cbv zeta.
  rewrite (store_results_io_well_formed _ _ _ _ _ _ _ _ _ _ Hwf).
  split; [apply after_lookups_mesh_at_most_once|].
  split; [intros l1 path f t' l2; apply after_lookups_field_after_mesh|].
  intros Hok. rewrite (after_lookups_returns _ _ _ _ _ _ _ _ _ Hok).
  unfold events; cbn [snd].
  split; [apply stored_mesh_once | apply stored_collective].
Qed.

Lemma store_results_mesh_once_before_fields_witness :
  well_formed Ex.history Ex.state (1 # 5) Ex.field_u Ex.field_alpha
  /\ (count is_mesh_write
        (events (ResultsStorage.store_results_io ExIO.fails_on_alpha
                   (Ex.store Ex.rank0) Ex.parameters Ex.history Ex.state
                   Ex.env ∅))
      <= 1)%nat.
Proof.
  split.
  - example_well_formed.
  - apply (store_results_mesh_once_before_fields ExIO.fails_on_alpha
             (Ex.store Ex.rank0) Ex.parameters Ex.history Ex.state Ex.env ∅
             (1 # 5) Ex.field_u Ex.field_alpha).
    example_well_formed.
Defined.

(** C6 as stated fails: the ['load'] series is empty, the call raises
    [IndexError] and the mesh is not written. *)
Lemma store_results_writes_no_mesh_on_empty_load :
  let call :=
    ResultsStorage.store_results (Ex.store Ex.rank0) Ex.parameters
      ExIO.empty_history Ex.state Ex.env ∅ in
  ExIO.empty_history !! lit "load" = Some []
  /\ outcome call = Raise IndexError
  /\ count is_mesh_write (events call) = 0%nat.
Proof.
  cbv zeta. split; [vm_compute; reflexivity|].
  split; vm_compute; reflexivity.
Qed.

(** C7, as the code has it.  [store_results] never compares the meshes of
    the fields: when the state holds a field on another mesh than [u]'s,
    the call returns normally like any other, having written [u]'s mesh and
    the two fields to the archive. *)
Theorem store_results_does_not_compare_meshes
  (self : ResultsStorage.t) (parameters : PyVal)
  (history_data : gmap pystr (list Sample)) (state : gmap pystr Function)
  (env : Env) (reg : gmap pystr Logger) (t : Sample) (u alpha : Function)
  (key : pystr) (f : Function) :
  well_formed history_data state t u alpha ->
  state !! key = Some f ->
  mesh (function_space f) <> mesh (function_space u) ->
  let call :=
    ResultsStorage.store_results self parameters history_data state env reg in
  outcome call = Ok tt
  /\ collective (events call) =
       [EXdmfOpen (ResultsStorage.archive_path self) (lit "w") HDF5;
        EXdmfWriteMesh (ResultsStorage.archive_path self)
          (mesh (function_space u));
        EXdmfWriteFunction (ResultsStorage.archive_path self) u t;
        EXdmfWriteFunction (ResultsStorage.archive_path self) alpha t;
        EXdmfClose (ResultsStorage.archive_path self)].
Proof.
  intros Hwf _ _. cbv zeta.
  rewrite (store_results_well_formed _ _ _ _ _ _ _ _ _ Hwf).
  split; [reflexivity|]. apply stored_collective.
Qed.

Lemma store_results_does_not_compare_meshes_witness :
  well_formed Ex.history Ex.state_two_meshes (1 # 5) Ex.field_u
    Ex.field_alpha'
  /\ Ex.state_two_meshes !! lit "alpha" = Some Ex.field_alpha'
  /\ mesh (function_space Ex.field_alpha') <> mesh (function_space Ex.field_u)
  /\ outcome
       (ResultsStorage.store_results (Ex.store Ex.rank0) Ex.parameters
          Ex.history Ex.state_two_meshes Ex.env ∅)
     = Ok tt.
Proof.
  split; [example_well_formed|].
  split; [vm_compute; reflexivity|].
  split; [vm_compute; discriminate|].
  apply (store_results_does_not_compare_meshes (Ex.store Ex.rank0)
           Ex.parameters Ex.history Ex.state_two_meshes Ex.env ∅ (1 # 5)
           Ex.field_u Ex.field_alpha' (lit "alpha") Ex.field_alpha').
  - example_well_formed.
  - vm_compute; reflexivity.
  - vm_compute; discriminate.
Defined.

(** C7 as stated fails: ['alpha'] lives on mesh 1 and ['u'] on mesh 0, yet
    the call raises nothing and writes the parameters file, the archive
    (with the field on the other mesh) and [time_data.json]. *)
Lemma store_results_accepts_two_meshes :
  let call :=
    ResultsStorage.store_results (Ex.store Ex.rank0) Ex.parameters
      Ex.history Ex.state_two_meshes Ex.env ∅ in
  Ex.state_two_meshes !! lit "u" = Some Ex.field_u
  /\ Ex.state_two_meshes !! lit "alpha" = Some Ex.field_alpha'
  /\ mesh (function_space Ex.field_alpha') <> mesh (function_space Ex.field_u)
  /\ outcome call = Ok tt
  /\ In (EYamlDump (lit "out/parameters.yaml") Ex.parameters) (events call)
  /\ In (EXdmfWriteFunction (lit "out/simulation_results.xdmf")
           Ex.field_alpha' (1 # 5)) (events call)
  /\ In (EJsonDump (lit "out/time_data.json") Ex.history) (events call).
Proof.
  assert (Hwf : well_formed Ex.history Ex.state_two_meshes (1 # 5)
                  Ex.field_u Ex.field_alpha') by example_well_formed.
  cbv zeta. rewrite (store_results_well_formed _ _ _ _ _ _ _ _ _ Hwf).
  split; [vm_compute; reflexivity|].
  split; [vm_compute; reflexivity|].
  split; [vm_compute; discriminate|].
  split; [reflexivity|].
  unfold events, stored. cbn. tauto.
Qed.




(** The archive operations of a call do not depend on the rank, whatever
    the input, when nothing is refused. *)
Lemma store_results_collective_rank_independent
  (prefix : pystr) (parameters : PyVal)
  (history_data : gmap pystr (list Sample)) (state : gmap pystr Function)
  (env : Env) (reg : gmap pystr Logger) (c1 c2 : Comm) :
  collective
    (events (ResultsStorage.store_results
               {| ResultsStorage.comm := c1; ResultsStorage.prefix := prefix |}
               parameters history_data state env reg))
  = collective
      (events (ResultsStorage.store_results
                 {| ResultsStorage.comm := c2;
                    ResultsStorage.prefix := prefix |}
                 parameters history_data state env reg)).
Proof.
  destruct (store_results_total
              {| ResultsStorage.comm := c1; ResultsStorage.prefix := prefix |}
              parameters history_data state env reg)
    as [(t & u & alpha & Hwf)|[e1 He1]].
  - rewrite !(store_results_well_formed _ _ _ _ _ _ _ _ _ Hwf).
    unfold events; cbn [snd]. rewrite !stored_collective. reflexivity.
  - destruct (store_results_total
                {| ResultsStorage.comm := c2;
                   ResultsStorage.prefix := prefix |}
                parameters history_data state env reg)
      as [(t & u & alpha & Hwf)|[e2 He2]].
    + rewrite (store_results_well_formed _ _ _ _ _ _ _ _ _ Hwf) in He1.
      discriminate He1.
    + rewrite He1, He2. reflexivity.
Qed.




(** ** Console output *)

(** A write followed by a flush, as every [ColorPrint] method does it. *)
Lemma write_and_flush_run (s : Stream) (data : pystr) env reg :
  (stream_write s data ;; stream_flush s) env reg
  = if negb (accepts_text s data) then (Raise UnicodeEncodeError, reg, [])
    else if bool_decide (s ∈ broken env) then (Raise (OSError s), reg, [])
    else if bool_decide (s ∈ flush_broken env)
         then (Raise (OSError s), reg, [EWrite s data])
         else (Ok tt, reg, [EWrite s data; EFlush s]).
Proof.
  unfold bind, stream_write, stream_flush, buffer_write, ask, bind.
  destruct (accepts_text s data); cbn [negb raise]; [|reflexivity].
  destruct (bool_decide (s ∈ broken env)); cbn [orb raise tell];
    [reflexivity|].
  destruct (bool_decide (s ∈ flush_broken env)); reflexivity.
Qed.


(** ** The logger *)

Lemma harmless_ret : harmless (ret tt).
Proof. intros env reg. eexists. reflexivity. Qed.

Lemma harmless_bind (m k : M unit) :
  harmless m -> harmless k -> harmless (m ;; k).
Proof.
  intros Hm Hk env reg.
  destruct (Hm env reg) as [ev1 H1], (Hk env reg) as [ev2 H2].
  eexists. unfold bind. rewrite H1, H2. reflexivity.
Qed.

Lemma guarded_accepts_all (m : M unit) :
  guarded accepts_all tt m -> harmless m.
Proof.
  intros H env reg.
  destruct (H env reg) as [Hok|(e & evs & _ & _ & [Hw|Ht])];
    [exact Hok | discriminate Hw | discriminate Ht].
Qed.

Lemma guarded_ret {A} io (a : A) : guarded io a (ret a).
Proof. intros env reg. left. eexists. reflexivity. Qed.

Lemma guarded_bind {A B} io (m : M A) (k : A -> M B) (a : A) (b : B) :
  guarded io a m -> guarded io b (k a) -> guarded io b (bind m k).
Proof.
  intros Hm Hk env reg. unfold bind.
  destruct (Hm env reg) as [[ev1 H1]|(e & ev1 & H1 & He)]; rewrite H1.
  - destruct (Hk env reg) as [[ev2 H2]|(e & ev2 & H2 & He)]; rewrite H2.
    + left. eexists. reflexivity.
    + right. exists e. eexists. split; [reflexivity|exact He].
  - right. exists e. eexists. split; [reflexivity|exact He].
Qed.

(** What a handler tries: it may raise, and leaves the registry alone. *)
Lemma emit_attempt_run io (h : Handler) (record : logging.LogRecord) env reg :
  exists r evs,
    (msg <- logging.format (h_formatter h) record ;;
     logging.sink_write_io io (h_sink h) (msg ++ logging.terminator) ;;
     logging.sink_flush_io io (h_sink h)) env reg
    = (r, reg, evs).
Proof.
  unfold logging.format, logging.sink_write_io, logging.sink_flush_io,
    logging.stream_write_io, logging.stream_flush_io, refuse, attempt,
    stream_write, stream_flush, buffer_write, bind, ask.
  cbn [ret].
  destruct (h_sink h) as [s|path].
  - match goal with
    | |- context [io (EWrite s ?t)] =>
        destruct (io (EWrite s t)); cbn [raise];
        [eexists; eexists; reflexivity|];
        destruct (accepts_text s t); cbn [raise];
        [|eexists; eexists; reflexivity]
    end.
    destruct (bool_decide (s ∈ broken env)); cbn [raise tell];
      [eexists; eexists; reflexivity|].
    destruct (io (EFlush s)); cbn [raise];
      [eexists; eexists; reflexivity|].
    destruct (bool_decide (s ∈ broken env)),
      (bool_decide (s ∈ flush_broken env)); cbn [orb raise tell];
      eexists; eexists; reflexivity.
  - match goal with
    | |- context [io (EFileWrite path ?t)] =>
        destruct (io (EFileWrite path t)); cbn [raise tell];
        [eexists; eexists; reflexivity|]
    end.
    destruct (io (EFileFlush path)); cbn [raise tell];
      eexists; eexists; reflexivity.
Qed.

Lemma guarded_handleError_io io record :
  guarded io tt (logging.handleError_io io record).
Proof.
  intros env reg.
  unfold logging.handleError_io, try_except, bind, logging.stream_write_io,
    refuse, attempt, stream_write, buffer_write, ask, bind.
  cbn [accepts_text ret].
  destruct (io (EWrite Stderr logging.logging_error)) as [e|] eqn:Hw;
    cbn [raise].
  - destruct (is_OSError e) eqn:He; cbn [ret raise].
    + left. eexists. reflexivity.
    + right. exists e. eexists. split; [reflexivity|]. split; [exact He|].
      left. reflexivity.
  - destruct (bool_decide (Stderr ∈ broken env)); cbn [raise tell ret].
    + left. eexists. reflexivity.
    + destruct (io (ETraceback Stderr)) as [e|] eqn:Ht; cbn [raise tell ret].
      * destruct (is_OSError e) eqn:He; cbn [ret raise].
        -- left. eexists. reflexivity.
        -- right. exists e. eexists. split; [reflexivity|].
           split; [exact He|]. right. reflexivity.
      * left. eexists. reflexivity.
Qed.

Lemma guarded_emit_io io h record :
  guarded io tt (logging.emit_io io h record).
Proof.
  intros env reg. unfold logging.emit_io, try_except.
  destruct (emit_attempt_run io h record env reg) as (r & evs & ->).
  destruct r as [[]|e].
  - left. eexists. reflexivity.
  - destruct (guarded_handleError_io io record env reg)
      as [[evh Hh]|(e' & evh & Hh & He)]; rewrite Hh.
    + left. eexists. reflexivity.
    + right. exists e'. eexists. split; [reflexivity|exact He].
Qed.

Lemma guarded_callEach_io io hs record :
  guarded io tt (logging.callEach_io io hs record).
Proof.
  induction hs as [|h hs IH]; cbn [logging.callEach_io].
  - apply guarded_ret.
  - apply (guarded_bind io _ _ tt); [|exact IH].
    destruct (h_level h <=? logging.r_levelno record)%nat.
    + apply guarded_emit_io.
    + apply guarded_ret.
Qed.

Lemma guarded_callHandlers_io io root lg record :
  guarded io tt (logging.callHandlers_io io root lg record).
Proof.
  unfold logging.callHandlers_io. destruct (l_handlers lg ++ root) as [|h hs].
  - destruct (_ <=? _)%nat; [apply guarded_emit_io | apply guarded_ret].
  - apply guarded_callEach_io.
Qed.

Lemma guarded_log_io io root logger level msg :
  guarded io tt (logging.log_io io root logger level msg).
Proof.
  intros env reg. unfold logging.log_io, bind, get_registry.
  destruct (logging.isEnabledFor _ level).
  - destruct (guarded_callHandlers_io io root (logging.the_logger reg logger)
                {| logging.r_name := logger; logging.r_levelno := level;
                   logging.r_message := msg |} env reg)
      as [[evs H]|(e & evs & H & He)]; rewrite H.
    + left. eexists. reflexivity.
    + right. exists e. eexists. split; [reflexivity|exact He].
  - left. eexists. reflexivity.
Qed.

Lemma harmless_handleError record : harmless (logging.handleError record).
Proof. apply guarded_accepts_all, guarded_handleError_io. Qed.

Lemma harmless_emit h record : harmless (logging.emit h record).
Proof. apply guarded_accepts_all, guarded_emit_io. Qed.

Lemma harmless_callEach hs record : harmless (logging.callEach hs record).
Proof. apply guarded_accepts_all, guarded_callEach_io. Qed.

Lemma harmless_callHandlers lg record :
  harmless (logging.callHandlers lg record).
Proof. apply guarded_accepts_all, guarded_callHandlers_io. Qed.

Lemma harmless_log logger level msg : harmless (logging.log logger level msg).
Proof. apply guarded_accepts_all, guarded_log_io. Qed.

(** A logger whose level is [CRITICAL] hands nothing below that level to
    any handler. *)
Lemma log_below_level logger level msg env reg lg :
  reg !! logger = Some lg ->
  (0 < l_level lg)%nat ->
  (level < l_level lg)%nat ->
  logging.log logger level msg env reg = (Ok tt, reg, []).
Proof.
  intros Hlg Hpos Hlt.
  unfold logging.log, logging.log_io, bind, get_registry,
    logging.the_logger.
  rewrite Hlg. cbn [default from_option]. unfold id.
  unfold logging.isEnabledFor, logging.getEffectiveLevel, logging.NOTSET.
  destruct (level <=? logging.manager_disable)%nat; [reflexivity|].
  assert (E : (l_level lg =? 0)%nat = false) by (apply Nat.eqb_neq; lia).
  rewrite E, (proj2 (Nat.leb_gt _ _) Hlt). reflexivity.
Qed.

(** *** [setup_logger_mpi] step by step *)

Lemma outcome_bind {A B} (m : M A) (k : A -> M B) env reg a reg1 ev1 :
  m env reg = (Ok a, reg1, ev1) ->
  outcome (bind m k env reg) = outcome (k a env reg1).
Proof. intros H. rewrite (bind_ok _ _ _ _ _ _ _ H). reflexivity. Qed.

Lemma registry_of_bind {A B} (m : M A) (k : A -> M B) env reg a reg1 ev1 :
  m env reg = (Ok a, reg1, ev1) ->
  registry_of (bind m k env reg) = registry_of (k a env reg1).
Proof. intros H. rewrite (bind_ok _ _ _ _ _ _ _ H). reflexivity. Qed.

Lemma outcome_bind_harmless {B} (m : M unit) (k : unit -> M B) env reg :
  harmless m -> outcome (bind m k env reg) = outcome (k tt env reg).
Proof. intros Hm. destruct (Hm env reg) as [evs H]. apply (outcome_bind _ _ _ _ _ _ _ H). Qed.

Lemma registry_of_bind_harmless {B} (m : M unit) (k : unit -> M B) env reg :
  harmless m -> registry_of (bind m k env reg) = registry_of (k tt env reg).
Proof.
  intros Hm. destruct (Hm env reg) as [evs H].
  apply (registry_of_bind _ _ _ _ _ _ _ H).
Qed.

Lemma the_logger_insert (reg : gmap pystr Logger) name lg :
  logging.the_logger (<[name := lg]> reg) name = lg.
Proof. unfold logging.the_logger. rewrite lookup_insert_eq. reflexivity. Qed.

Lemma getLogger_run name env reg :
  logging.getLogger name env reg
  = (Ok name,
     match reg !! name with
     | Some _ => reg
     | None => <[name := logging.fresh_logger]> reg
     end, []).
Proof.
  unfold logging.getLogger, bind, get_registry.
  destruct (reg !! name); reflexivity.
Qed.

Lemma setLevel_run logger level env reg :
  logging.setLevel logger level env reg
  = (Ok tt,
     <[logger := {| l_level := level;
                    l_handlers :=
                      l_handlers (logging.the_logger reg logger) |}]> reg,
     []).
Proof. reflexivity. Qed.

Lemma addHandler_run logger h env reg :
  logging.addHandler logger h env reg
  = (Ok tt,
     <[logger := {| l_level := l_level (logging.the_logger reg logger);
                    l_handlers :=
                      l_handlers (logging.the_logger reg logger) ++ [h] |}]>
       reg,
     []).
Proof. reflexivity. Qed.

Lemma FileHandler_run path env reg :
  logging.FileHandler path env reg
  = (Ok {| h_sink := ToFile path; h_level := logging.NOTSET;
           h_formatter := None |},
     reg, [EOpen path (lit "a")]).
Proof. reflexivity. Qed.

Lemma ask_run env reg : ask env reg = (Ok env, reg, []).
Proof. reflexivity. Qed.

Ltac run_primitive :=
  first [ apply getLogger_run | apply setLevel_run | apply addHandler_run
        | apply FileHandler_run | apply ask_run ].

Ltac step_outcome :=
  first [ erewrite outcome_bind by run_primitive
        | rewrite outcome_bind_harmless by apply harmless_log ];
  cbv beta zeta.

Ltac step_registry :=
  first [ erewrite registry_of_bind by run_primitive
        | rewrite registry_of_bind_harmless by apply harmless_log ];
  cbv beta zeta.

Lemma events_bind {A B} (m : M A) (k : A -> M B) env reg a reg1 ev1 :
  m env reg = (Ok a, reg1, ev1) ->
  events (bind m k env reg) = ev1 ++ events (k a env reg1).
Proof. intros H. rewrite (bind_ok _ _ _ _ _ _ _ H). reflexivity. Qed.

Ltac step_events :=
  erewrite events_bind by run_primitive; cbv beta zeta.

(** The registry after the five configuring statements. *)
Lemma configured_registry (c : Comm) (reg : gmap pystr Logger) level fmt :
  level = (if (rank c =? 0)%nat then logging.INFO else logging.CRITICAL) ->
  fmt = [FAsctime; FLit (lit " - "); FName; FLit (lit " - "); FLevelname;
         FLit (lit " - "); FMessage] ->
  let reg1 := match reg !! evolver with
              | Some _ => reg
              | None => <[evolver := logging.fresh_logger]> reg
              end in
  let reg2 :=
    <[evolver := {| l_level := level;
                    l_handlers :=
                      l_handlers (logging.the_logger reg1 evolver) |}]> reg1 in
  let reg3 :=
    <[evolver := {| l_level := l_level (logging.the_logger reg2 evolver);
                    l_handlers :=
                      l_handlers (logging.the_logger reg2 evolver) ++
                      [{| h_sink := ToStream Stderr; h_level := level;
                          h_formatter := Some fmt |}] |}]> reg2 in
  <[evolver := {| l_level := l_level (logging.the_logger reg3 evolver);
                  l_handlers :=
                    l_handlers (logging.the_logger reg3 evolver) ++
                    [{| h_sink := ToFile (lit "evolution.log");
                        h_level := level; h_formatter := Some fmt |}] |}]>
    reg3
  = <[evolver := configured c reg]> reg.
Proof.
  intros -> ->. cbv zeta.
  rewrite !the_logger_insert. cbn [l_level l_handlers].
  rewrite !insert_insert_eq, <- app_assoc. cbn [app]. unfold configured.
  assert (Hsame :
    logging.the_logger
      (match reg !! evolver with
       | Some _ => reg
       | None => <[evolver := logging.fresh_logger]> reg
       end) evolver = logging.the_logger reg evolver).
  { unfold logging.the_logger.
    destruct (reg !! evolver) eqn:E; [rewrite E; reflexivity|].
    rewrite lookup_insert_eq. reflexivity. }
  rewrite Hsame.
  destruct (reg !! evolver); [reflexivity|].
  apply insert_insert_eq.
Qed.

Lemma setup_logger_mpi_run (c : Comm) (root_priority : nat) env reg :
  outcome (setup_logger_mpi c root_priority env reg) = Ok evolver
  /\ registry_of (setup_logger_mpi c root_priority env reg)
     = <[evolver := configured c reg]> reg.
Proof.
  unfold setup_logger_mpi, setup_logger_mpi_io. cbv beta zeta. split.
  - do 9 step_outcome. reflexivity.
  - do 9 step_registry. unfold registry_of, ret; cbn [fst snd].
    unfold logging.Handler_setLevel, logging.Handler_setFormatter,
      logging.StreamHandler; cbn [h_sink h_level h_formatter].
    apply (configured_registry c reg); reflexivity.
Qed.

(** On a rank other than 0 the two [logger.info] calls of
    [setup_logger_mpi] issue nothing: besides opening the log file, what
    the function issues is what its [logger.critical] call issues. *)
Lemma setup_logger_mpi_events_other_ranks
  (c : Comm) (root_priority : nat) env reg :
  rank c <> 0%nat ->
  events (setup_logger_mpi c root_priority env reg)
  = EOpen (lit "evolution.log") (lit "a")
    :: events
         (logging.critical evolver
            (lit "DOLFINx version: " ++ dolfinx_version env ++
             lit " based on GIT commit: " ++ dolfinx_git_commit_hash env ++
             lit " of https://github.com/FEniCS/dolfinx/")
            env (<[evolver := configured c reg]> reg)).
Proof.
  intros Hr.
  assert (Hlevel : l_level (configured c reg) = logging.CRITICAL).
  { unfold configured. cbn [l_level].
    apply Nat.eqb_neq in Hr. rewrite Hr. reflexivity. }
  unfold setup_logger_mpi, setup_logger_mpi_io. cbv beta zeta.
  do 5 step_events.
  unfold logging.Handler_setLevel, logging.Handler_setFormatter,
    logging.StreamHandler; cbn [h_sink h_level h_formatter].
  rewrite (configured_registry c reg) by reflexivity.
  assert (Hquiet : forall m,
    logging.info evolver m env (<[evolver := configured c reg]> reg)
    = (Ok tt, <[evolver := configured c reg]> reg, [])).
  { intros m. apply (log_below_level _ _ _ _ _ (configured c reg)).
    - apply lookup_insert_eq.
    - rewrite Hlevel. unfold logging.CRITICAL. lia.
    - rewrite Hlevel. unfold logging.INFO, logging.CRITICAL. lia. }
  erewrite events_bind by apply Hquiet.
  erewrite events_bind by apply Hquiet.
  step_events.
  destruct (harmless_log evolver logging.CRITICAL
              (lit "DOLFINx version: " ++ dolfinx_version env ++
               lit " based on GIT commit: " ++ dolfinx_git_commit_hash env ++
               lit " of https://github.com/FEniCS/dolfinx/")
              env (<[evolver := configured c reg]> reg)) as [evs Hcrit].
  unfold logging.critical.
  erewrite events_bind by apply Hcrit.
  rewrite Hcrit. unfold events, ret; cbn [fst snd app].
  rewrite app_nil_r. reflexivity.
Qed.

(** *** The claims on the console output and the logger *)

(** C4. On a process whose rank is not 0, each [ColorPrint] method returns
    without any I/O operation, whatever the string; and once
    [setup_logger_mpi] has run there, a message of any level below
    [CRITICAL] sent through the logger reaches neither the console handler
    nor the file handler: no operation is issued at all.  The two
    [logger.info] calls of [setup_logger_mpi] itself are among them: what the
    function issues there is the opening of the log file and its one
    [CRITICAL] record. *)
Theorem non_coordinator_logs_nothing
  (c : Comm) (message end_ msg : pystr) (root_priority level : nat)
  (env env' : Env) (reg : gmap pystr Logger) :
  rank c <> 0%nat ->
  (level < logging.CRITICAL)%nat ->
  ColorPrint.print_fail c message end_ env reg = (Ok tt, reg, [])
  /\ ColorPrint.print_pass c message end_ env reg = (Ok tt, reg, [])
  /\ ColorPrint.print_warn c message end_ env reg = (Ok tt, reg, [])
  /\ ColorPrint.print_info c message end_ env reg = (Ok tt, reg, [])
  /\ ColorPrint.print_color c message end_ env reg = (Ok tt, reg, [])
  /\ ColorPrint.print_bold c message end_ env reg = (Ok tt, reg, [])
  /\ let after := setup_logger_mpi c root_priority env reg in
     outcome after = Ok evolver
     /\ logging.log evolver level msg env' (registry_of after)
        = (Ok tt, registry_of after, [])
     /\ events after
        = EOpen (lit "evolution.log") (lit "a")
          :: events
               (logging.critical evolver
                  (lit "DOLFINx version: " ++ dolfinx_version env ++
                   lit " based on GIT commit: " ++
                   dolfinx_git_commit_hash env ++
                   lit " of https://github.com/FEniCS/dolfinx/")
                  env (registry_of after)).
Proof.
  intros Hr Hlevel.
  unfold ColorPrint.print_fail, ColorPrint.print_pass, ColorPrint.print_warn,
    ColorPrint.print_info, ColorPrint.print_color, ColorPrint.print_bold.
  apply Nat.eqb_neq in Hr. rewrite Hr.
  do 6 (split; [reflexivity|]).
  cbv zeta.
  destruct (setup_logger_mpi_run c root_priority env reg) as [Hout Hreg].
  split; [exact Hout|].
  rewrite Hreg. split.
  - apply (log_below_level _ _ _ _ _ (configured c reg)).
    + apply lookup_insert_eq.
    + unfold configured. cbn [l_level]. rewrite Hr.
      unfold logging.CRITICAL. lia.
    + unfold configured. cbn [l_level]. rewrite Hr. exact Hlevel.
  - apply setup_logger_mpi_events_other_ranks. apply Nat.eqb_neq. exact Hr.
Qed.

Lemma non_coordinator_logs_nothing_witness :
  rank Ex.rank1 <> 0%nat
  /\ (logging.INFO < logging.CRITICAL)%nat
  /\ ColorPrint.print_fail Ex.rank1 (lit "failed") default_end Ex.env ∅
     = (Ok tt, ∅, []).
Proof.
  split; [vm_compute; lia|].
  split; [vm_compute; lia|].
  apply (non_coordinator_logs_nothing Ex.rank1 (lit "failed") default_end
           (lit "step done") logging.INFO logging.INFO Ex.env Ex.env ∅).
  - vm_compute; lia.
  - vm_compute; lia.
Defined.








(** The logger raises as well: after [setup_logger_mpi] on rank 0, with a
    standard error that is closed, the console handler fails, the report of
    the failure fails with [ValueError], and [logger.info] raises it to its
    caller before the file handler is reached. *)
Lemma logger_raises_when_standard_error_is_closed :
  let reg := registry_of (setup_logger_mpi Ex.rank0 logging.INFO Ex.env ∅) in
  logging.log_io ExIO.closed_stderr [] evolver logging.INFO (lit "step 1")
    Ex.env reg
  = (Raise ValueError, reg, []).
Proof. vm_compute. reflexivity. Qed.

(** ** The scenario of the specification

    [history = {"load": [0.0, 0.1, 0.2]}], the fields [u] and [alpha] on one
    mesh, [parameters = {"general": {"dim": 2}}] and the prefix ["out"]:
    what ranks 0 and 1 issue. *)

Example store_results_scenario_rank0 :
  ResultsStorage.store_results (Ex.store Ex.rank0) Ex.parameters Ex.history
    Ex.state Ex.env ∅
  = (Ok tt, ∅,
     [EOpen (lit "out/parameters.yaml") (lit "w");
      EYamlDump (lit "out/parameters.yaml") Ex.parameters;
      EClose (lit "out/parameters.yaml");
      EXdmfOpen (lit "out/simulation_results.xdmf") (lit "w") HDF5;
      EXdmfWriteMesh (lit "out/simulation_results.xdmf") Ex.M0;
      EXdmfWriteFunction (lit "out/simulation_results.xdmf") Ex.field_u
        (1 # 5);
      EXdmfWriteFunction (lit "out/simulation_results.xdmf") Ex.field_alpha
        (1 # 5);
      EXdmfClose (lit "out/simulation_results.xdmf");
      EOpen (lit "out/time_data.json") (lit "w");
      EJsonDump (lit "out/time_data.json") Ex.history;
      EClose (lit "out/time_data.json")]).
Proof. vm_compute. reflexivity. Qed.

Example store_results_scenario_rank1 :
  ResultsStorage.store_results (Ex.store Ex.rank1) Ex.parameters Ex.history
    Ex.state Ex.env ∅
  = (Ok tt, ∅,
     [EXdmfOpen (lit "out/simulation_results.xdmf") (lit "w") HDF5;
      EXdmfWriteMesh (lit "out/simulation_results.xdmf") Ex.M0;
      EXdmfWriteFunction (lit "out/simulation_results.xdmf") Ex.field_u
        (1 # 5);
      EXdmfWriteFunction (lit "out/simulation_results.xdmf") Ex.field_alpha
        (1 # 5);
      EXdmfClose (lit "out/simulation_results.xdmf")]).
Proof. vm_compute. reflexivity. Qed.

Example strip_examples :
  strip (lit "  residual ok ") = lit "residual ok"
  /\ strip (lit "   ") = []
  /\ strip (9 :: 160 :: lit "a b" ++ [10; 8232]) = lit "a b".
Proof. vm_compute. auto. Qed.

(** * Further properties of the code *)

(** ** [str.strip] as the [ColorPrint] methods use it *)

Lemma lstrip_all_space (ws s : pystr) :
  all_space ws = true -> lstrip (ws ++ s) = lstrip s.
Proof.
  induction ws as [|c ws IH]; cbn; [reflexivity|].
  intros H. apply andb_prop in H as [Hc Hws]. rewrite Hc. auto.
Qed.

Lemma lstrip_nil_iff (s : pystr) : lstrip s = [] <-> all_space s = true.
Proof.
  induction s as [|c s IH]; cbn; [tauto|].
  destruct (isspace c); cbn; [exact IH|]. split; discriminate.
Qed.

Lemma lstrip_starts_clean (s : pystr) : starts_clean (lstrip s) = true.
Proof.
  induction s as [|c s IH]; cbn; [reflexivity|].
  destruct (isspace c) eqn:E; [exact IH|]. cbn. rewrite E. reflexivity.
Qed.

Lemma lstrip_clean (s : pystr) : starts_clean s = true -> lstrip s = s.
Proof.
  destruct s as [|c s]; cbn; [reflexivity|].
  destruct (isspace c); [discriminate|reflexivity].
Qed.

Lemma lstrip_app (s w : pystr) :
  all_space w = true ->
  lstrip (s ++ w) = match lstrip s with [] => [] | _ => lstrip s ++ w end.
Proof.
  intros Hw. induction s as [|c s IH]; cbn.
  - apply lstrip_nil_iff. exact Hw.
  - destruct (isspace c); [exact IH|reflexivity].
Qed.

Lemma all_space_rev (s : pystr) : all_space (rev s) = all_space s.
Proof.
  unfold all_space. induction s as [|c s IH]; cbn; [reflexivity|].
  rewrite forallb_app, IH. cbn. rewrite andb_true_r. apply andb_comm.
Qed.

Lemma rstrip_all_space (s ws : pystr) :
  all_space ws = true -> rstrip (s ++ ws) = rstrip s.
Proof.
  intros H. unfold rstrip. rewrite rev_app_distr, lstrip_all_space;
    [reflexivity|]. rewrite all_space_rev. exact H.
Qed.

Lemma rstrip_nil_iff (s : pystr) : rstrip s = [] <-> all_space s = true.
Proof.
  unfold rstrip. rewrite <- (all_space_rev s), <- lstrip_nil_iff.
  split; intros H.
  - apply (f_equal (@rev N)) in H. rewrite rev_involutive in H. exact H.
  - rewrite H. reflexivity.
Qed.

(** Only white space is taken from the left: a first character that is
    kept stays first when the right end is stripped. *)
Lemma lstrip_snoc (l : pystr) (c : N) :
  isspace c = false -> exists l', lstrip (l ++ [c]) = l' ++ [c].
Proof.
  intros Hc. induction l as [|d l IH]; cbn.
  - rewrite Hc. exists []. reflexivity.
  - destruct (isspace d); [exact IH|]. exists (d :: l). reflexivity.
Qed.

Lemma rstrip_starts_clean (s : pystr) :
  starts_clean s = true -> starts_clean (rstrip s) = true.
Proof.
  destruct s as [|c s]; [reflexivity|]. cbn [starts_clean].
  intros Hc. apply negb_true_iff in Hc.
  unfold rstrip. cbn [rev].
  destruct (lstrip_snoc (rev s) c Hc) as [l' ->].
  rewrite rev_app_distr. cbn. rewrite Hc. reflexivity.
Qed.

Lemma rstrip_ends_clean (s : pystr) : ends_clean (rstrip s) = true.
Proof.
  unfold ends_clean, rstrip. rewrite rev_involutive.
  apply lstrip_starts_clean.
Qed.

Lemma rstrip_clean (s : pystr) : ends_clean s = true -> rstrip s = s.
Proof.
  unfold ends_clean, rstrip. intros H.
  rewrite lstrip_clean by exact H. apply rev_involutive.
Qed.

Lemma strip_surrounded (ws1 s ws2 : pystr) :
  all_space ws1 = true -> all_space ws2 = true ->
  strip (ws1 ++ s ++ ws2) = strip s.
Proof.
  intros H1 H2. unfold strip.
  rewrite lstrip_all_space by exact H1.
  rewrite lstrip_app by exact H2.
  destruct (lstrip s) as [|c l]; [reflexivity|].
  apply rstrip_all_space. exact H2.
Qed.

Lemma strip_clean_iff (s : pystr) :
  strip s = s <-> starts_clean s = true /\ ends_clean s = true.
Proof.
  unfold strip. split.
  - intros H. split.
    + rewrite <- H. apply rstrip_starts_clean, lstrip_starts_clean.
    + rewrite <- H. apply rstrip_ends_clean.
  - intros [Hs He]. rewrite lstrip_clean by exact Hs.
    apply rstrip_clean. exact He.
Qed.

Lemma strip_nil_iff (s : pystr) : strip s = [] <-> all_space s = true.
Proof.
  unfold strip. rewrite rstrip_nil_iff. split; intros H.
  - apply lstrip_nil_iff.
    pose proof (lstrip_starts_clean s) as Hc.
    destruct (lstrip s) as [|c l]; [reflexivity|].
    cbn in H, Hc. apply andb_prop in H as [H _]. rewrite H in Hc. discriminate.
  - apply lstrip_nil_iff in H. rewrite H. reflexivity.
Qed.

Lemma lstrip_decompose (s : pystr) :
  exists ws, all_space ws = true /\ s = ws ++ lstrip s.
Proof.
  induction s as [|c s (ws & Hws & IH)]; cbn.
  - exists []. split; reflexivity.
  - destruct (isspace c) eqn:E.
    + exists (c :: ws). split.
      * unfold all_space in *. cbn. rewrite E. exact Hws.
      * cbn. f_equal. exact IH.
    + exists []. split; reflexivity.
Qed.

Lemma rstrip_decompose (s : pystr) :
  exists ws, all_space ws = true /\ s = rstrip s ++ ws.
Proof.
  destruct (lstrip_decompose (rev s)) as (ws & Hws & H).
  exists (rev ws). split.
  - rewrite all_space_rev. exact Hws.
  - unfold rstrip. rewrite <- rev_app_distr, <- H, rev_involutive.
    reflexivity.
Qed.

Lemma strip_decompose (s : pystr) :
  exists ws1 ws2,
    all_space ws1 = true /\ all_space ws2 = true /\
    s = ws1 ++ strip s ++ ws2.
Proof.
  destruct (lstrip_decompose s) as (ws1 & H1 & E1).
  destruct (rstrip_decompose (lstrip s)) as (ws2 & H2 & E2).
  exists ws1, ws2. split; [exact H1|]. split; [exact H2|].
  unfold strip. rewrite <- E2. exact E1.
Qed.

(** ** The [ColorPrint] methods, all at once *)

Lemma color_method_run colour s pr (c : Comm) (message end_ : pystr) :
  In (colour, s, pr) color_methods ->
  pr c message end_
  = if (rank c =? 0)%nat then
      (stream_write s (colored colour (strip message) end_) ;;
       stream_flush s)
    else ret tt.
Proof.
  unfold color_methods. cbn [In]. intros H.
  repeat (destruct H as [H|H]; [injection H as <- <- <-; reflexivity|]).
  contradiction.
Qed.

Lemma color_method_rank0 colour s pr (c : Comm) (message end_ : pystr)
  env reg :
  In (colour, s, pr) color_methods ->
  rank c = 0%nat ->
  pr c message end_ env reg
  = let text := colored colour (strip message) end_ in
    if negb (accepts_text s text) then (Raise UnicodeEncodeError, reg, [])
    else if bool_decide (s ∈ broken env) then (Raise (OSError s), reg, [])
    else if bool_decide (s ∈ flush_broken env)
         then (Raise (OSError s), reg, [EWrite s text])
         else (Ok tt, reg, [EWrite s text; EFlush s]).
Proof.
  intros Hin Hr. rewrite (color_method_run _ _ _ _ _ _ Hin), Hr.
  cbn [Nat.eqb]. apply write_and_flush_run.
Qed.

Lemma color_method_working colour s pr (c : Comm) (message end_ : pystr)
  env reg :
  In (colour, s, pr) color_methods ->
  rank c = 0%nat ->
  accepts_text s (colored colour (strip message) end_) = true ->
  s ∉ broken env ->
  s ∉ flush_broken env ->
  pr c message end_ env reg
  = (Ok tt, reg, [EWrite s (colored colour (strip message) end_); EFlush s]).
Proof.
  intros Hin Hr Ht Hs Hf. rewrite (color_method_rank0 _ _ _ _ _ _ _ _ Hin Hr).
  cbv zeta. rewrite Ht.
  rewrite (bool_decide_eq_false_2 _ Hs), (bool_decide_eq_false_2 _ Hf).
  reflexivity.
Qed.

(** X1. White space around a message is lost: a message and the same
    message with white space added at its two ends make every [ColorPrint]
    method do the same. *)
Theorem color_print_ignores_surrounding_space
  colour s pr (c : Comm) (ws1 message ws2 end_ : pystr) env reg :
  In (colour, s, pr) color_methods ->
  all_space ws1 = true ->
  all_space ws2 = true ->
  pr c (ws1 ++ message ++ ws2) end_ env reg = pr c message end_ env reg.
Proof.
  intros Hin H1 H2. rewrite !(color_method_run _ _ _ _ _ _ Hin).
  rewrite strip_surrounded by assumption. reflexivity.
Qed.

Lemma color_print_ignores_surrounding_space_witness :
  In (lit "[1;34m", Stdout, ColorPrint.print_info) color_methods
  /\ all_space (lit "    ") = true
  /\ all_space [9; 10] = true
  /\ ColorPrint.print_info Ex.rank0
       (lit "    " ++ lit "step 3: converged" ++ [9; 10]) default_end
       Ex.env ∅
     = ColorPrint.print_info Ex.rank0 (lit "step 3: converged") default_end
         Ex.env ∅.
Proof.
  split; [cbn; tauto|].
  split; [vm_compute; reflexivity|].
  split; [vm_compute; reflexivity|].
  apply (color_print_ignores_surrounding_space (lit "[1;34m") Stdout).
  - cbn; tauto.
  - vm_compute; reflexivity.
  - vm_compute; reflexivity.
Defined.

(** X2. What a method writes on rank 0 between the colour sequence and the
    reset sequence, when its stream works and can encode the text, is the
    message without the white space at its two ends: the message is that
    text between two runs of white space, the text neither begins nor ends
    with white space, and it is empty exactly when the message is nothing
    but white space. *)
Theorem color_print_text
  colour s pr (c : Comm) (message end_ : pystr) env reg :
  In (colour, s, pr) color_methods ->
  rank c = 0%nat ->
  accepts_text s (colored colour (strip message) end_) = true ->
  s ∉ broken env ->
  s ∉ flush_broken env ->
  exists text ws1 ws2,
    pr c message end_ env reg
    = (Ok tt, reg, [EWrite s (colored colour text end_); EFlush s])
    /\ message = ws1 ++ text ++ ws2
    /\ all_space ws1 = true /\ all_space ws2 = true
    /\ starts_clean text = true /\ ends_clean text = true
    /\ (text = [] <-> all_space message = true).
Proof.
  intros Hin Hr Ht Hs Hf.
  destruct (strip_decompose message) as (ws1 & ws2 & H1 & H2 & E).
  exists (strip message), ws1, ws2.
  split; [apply color_method_working; assumption|].
  split; [exact E|].
  split; [exact H1|]. split; [exact H2|].
  split; [apply rstrip_starts_clean, lstrip_starts_clean|].
  split; [apply rstrip_ends_clean|]. apply strip_nil_iff.
Qed.

Lemma color_print_text_witness :
  In (lit "[1;33m", Stderr, ColorPrint.print_warn) color_methods
  /\ rank Ex.rank0 = 0%nat
  /\ accepts_text Stderr
       (colored (lit "[1;33m") (strip (lit "  slow ")) default_end) = true
  /\ (Stderr ∉ broken Ex.env)
  /\ (Stderr ∉ flush_broken Ex.env)
  /\ exists text ws1 ws2,
      ColorPrint.print_warn Ex.rank0 (lit "  slow ") default_end Ex.env ∅
      = (Ok tt, ∅,
         [EWrite Stderr (colored (lit "[1;33m") text default_end);
          EFlush Stderr])
      /\ lit "  slow " = ws1 ++ text ++ ws2
      /\ all_space ws1 = true /\ all_space ws2 = true
      /\ starts_clean text = true /\ ends_clean text = true
      /\ (text = [] <-> all_space (lit "  slow ") = true).
Proof.
  split; [cbn; tauto|].
  split; [reflexivity|].
  split; [reflexivity|].
  split; [vm_compute; apply not_elem_of_nil|].
  split; [vm_compute; apply not_elem_of_nil|].
  apply (color_print_text (lit "[1;33m") Stderr).
  - cbn; tauto.
  - reflexivity.
  - reflexivity.
  - vm_compute; apply not_elem_of_nil.
  - vm_compute; apply not_elem_of_nil.
Defined.

(** X3. On rank 0, when its stream works and can encode the message, a
    method writes the message as it was given exactly when the message
    neither begins nor ends with white space. *)
Theorem color_print_verbatim_iff
  colour s pr (c : Comm) (message end_ : pystr) env reg :
  In (colour, s, pr) color_methods ->
  rank c = 0%nat ->
  accepts_text s (colored colour message end_) = true ->
  s ∉ broken env ->
  s ∉ flush_broken env ->
  pr c message end_ env reg
  = (Ok tt, reg, [EWrite s (colored colour message end_); EFlush s])
  <-> starts_clean message = true /\ ends_clean message = true.
Proof.
  intros Hin Hr Ht Hs Hf.
  rewrite <- strip_clean_iff. split.
  - intros H. rewrite (color_method_rank0 _ _ _ _ _ _ _ _ Hin Hr) in H.
    cbv zeta in H.
    destruct (accepts_text s (colored colour (strip message) end_));
      cbn [negb] in H; [|discriminate H].
    rewrite (bool_decide_eq_false_2 _ Hs), (bool_decide_eq_false_2 _ Hf) in H.
    injection H as H. unfold colored in H.
    apply app_inv_head in H. apply app_inv_tail in H. exact H.
  - intros E. rewrite <- E in Ht.
    rewrite (color_method_working _ _ _ _ _ _ _ _ Hin Hr Ht Hs Hf), E.
    reflexivity.
Qed.

Lemma color_print_verbatim_iff_witness :
  In (lit "[1;32m", Stdout, ColorPrint.print_pass) color_methods
  /\ rank Ex.rank0 = 0%nat
  /\ accepts_text Stdout
       (colored (lit "[1;32m") (lit "all tests passed") default_end) = true
  /\ (Stdout ∉ broken Ex.env)
  /\ (Stdout ∉ flush_broken Ex.env)
  /\ (ColorPrint.print_pass Ex.rank0 (lit "all tests passed") default_end
        Ex.env ∅
      = (Ok tt, ∅,
         [EWrite Stdout
            (colored (lit "[1;32m") (lit "all tests passed") default_end);
          EFlush Stdout])
      <-> starts_clean (lit "all tests passed") = true
          /\ ends_clean (lit "all tests passed") = true).
Proof.
  split; [cbn; tauto|].
  split; [reflexivity|].
  split; [vm_compute; reflexivity|].
  split; [vm_compute; apply not_elem_of_nil|].
  split; [vm_compute; apply not_elem_of_nil|].
  apply (color_print_verbatim_iff (lit "[1;32m") Stdout).
  - cbn; tauto.
  - reflexivity.
  - vm_compute; reflexivity.
  - vm_compute; apply not_elem_of_nil.
  - vm_compute; apply not_elem_of_nil.
Defined.



(** ** More on [store_results] *)

(** X5. With a usable history, a state without the key ['u'], or with
    ['u'] but without ['alpha'], makes [store_results] raise [KeyError] for
    that key before any I/O operation. *)
Theorem store_results_missing_field
  (self : ResultsStorage.t) (parameters : PyVal)
  (history_data : gmap pystr (list Sample)) (state : gmap pystr Function)
  (env : Env) (reg : gmap pystr Logger) (load : list Sample) (t : Sample) :
  history_data !! lit "load" = Some load ->
  last load = Some t ->
  let call :=
    ResultsStorage.store_results self parameters history_data state env reg in
  (state !! lit "u" = None -> call = (Raise (KeyError (lit "u")), reg, []))
  /\ (forall u, state !! lit "u" = Some u ->
      state !! lit "alpha" = None ->
      call = (Raise (KeyError (lit "alpha")), reg, [])).
Proof.
  intros Hload Hlast. cbv zeta. unfold ResultsStorage.store_results, ResultsStorage.store_results_io.
  split.
  - intros Hu.
    unfold bind at 1. unfold getitem at 1. rewrite Hload. cbn [ret].
    unfold bind at 1. unfold getitem_last. rewrite Hlast. cbn [ret].
    unfold bind at 1. unfold getitem at 1. rewrite Hu.
    reflexivity.
  - intros u Hu Halpha.
    unfold bind at 1. unfold getitem at 1. rewrite Hload. cbn [ret].
    unfold bind at 1. unfold getitem_last. rewrite Hlast. cbn [ret].
    unfold bind at 1. unfold getitem at 1. rewrite Hu.
    cbn [ret]. unfold bind at 1. unfold getitem at 1. rewrite Halpha.
    reflexivity.
Qed.

Lemma store_results_missing_field_witness :
  Ex.history !! lit "load" = Some [0; 1 # 10; 1 # 5]%Q
  /\ last [0; 1 # 10; 1 # 5]%Q = Some (1 # 5)%Q
  /\ ResultsStorage.store_results (Ex.store Ex.rank0) Ex.parameters
       Ex.history ∅ Ex.env ∅
     = (Raise (KeyError (lit "u")), ∅, []).
Proof.
  split; [vm_compute; reflexivity|].
  split; [reflexivity|].
  apply (store_results_missing_field (Ex.store Ex.rank0) Ex.parameters
           Ex.history ∅ Ex.env ∅ [0; 1 # 10; 1 # 5]%Q (1 # 5)%Q).
  - vm_compute; reflexivity.
  - reflexivity.
  - reflexivity.
Defined.

Lemma paths_distinct (self : ResultsStorage.t) :
  ResultsStorage.parameters_path self <> ResultsStorage.archive_path self
  /\ ResultsStorage.parameters_path self <> ResultsStorage.time_data_path self
  /\ ResultsStorage.archive_path self <> ResultsStorage.time_data_path self.
Proof.
  unfold ResultsStorage.parameters_path, ResultsStorage.archive_path,
    ResultsStorage.time_data_path.
  repeat split; intros H; apply app_inv_head in H; vm_compute in H;
    discriminate H.
Qed.

Lemma stored_bracketed self parameters history_data u alpha t :
  bracketed None (stored self parameters history_data u alpha t) = true.
Proof.
  unfold stored.
  destruct (rank (ResultsStorage.comm self) =? 0)%nat; cbn;
    rewrite ?bool_decide_eq_true_2 by reflexivity; reflexivity.
Qed.

(** X6. Whatever its input and its rank, and whatever opening or writing
    the file system or the archive library refuse, [store_results] never
    has two files open at once, writes only to the file it has open, and
    has closed every file it opened when it returns or raises, as long as
    closing itself is not refused. *)
Theorem store_results_bracketed
  (io : Event -> option Exn) (self : ResultsStorage.t) (parameters : PyVal)
  (history_data : gmap pystr (list Sample)) (state : gmap pystr Function)
  (env : Env) (reg : gmap pystr Logger) :
  (forall p, io (EClose p) = None) ->
  (forall p, io (EXdmfClose p) = None) ->
  bracketed None
    (events (ResultsStorage.store_results_io io self parameters history_data
               state env reg))
  = true.
Proof.
  intros Hc Hx.
  destruct (store_results_io_total io self parameters history_data state env
              reg)
    as [(t & u & alpha & Hwf)|[e He]].
  - rewrite (store_results_io_well_formed _ _ _ _ _ _ _ _ _ _ Hwf).
    apply after_lookups_bracketed; assumption.
  - rewrite He. reflexivity.
Qed.

Lemma store_results_bracketed_witness :
  let call :=
    ResultsStorage.store_results_io ExIO.fails_on_alpha (Ex.store Ex.rank0)
      Ex.parameters Ex.history Ex.state Ex.env ∅ in
  (forall p, ExIO.fails_on_alpha (EClose p) = None)
  /\ (forall p, ExIO.fails_on_alpha (EXdmfClose p) = None)
  /\ outcome call = Raise (OSErrorOn (lit "out/simulation_results.xdmf"))
  /\ bracketed None (events call) = true.
Proof.
  cbv zeta.
  split; [reflexivity|]. split; [reflexivity|].
  split; [vm_compute; reflexivity|].
  apply (store_results_bracketed ExIO.fails_on_alpha (Ex.store Ex.rank0)
           Ex.parameters Ex.history Ex.state Ex.env ∅); reflexivity.
Defined.

(** *** The files after a call *)

Lemma replay_app evs1 evs2 fs :
  replay (evs1 ++ evs2) fs = replay evs2 (replay evs1 fs).
Proof. apply foldl_app. Qed.

Lemma replay_file p (dump : Event) fs :
  apply_event (<[p := []]> fs) dump = <[p := [dump]]> fs ->
  replay [EOpen p (lit "w"); dump; EClose p] fs = <[p := [dump]]> fs.
Proof.
  intros H. unfold replay. cbn [foldl]. cbn [apply_event].
  rewrite bool_decide_eq_true_2 by reflexivity. rewrite H. reflexivity.
Qed.

Lemma replay_archive p enc m u alpha (t : Sample) fs :
  replay
    [EXdmfOpen p (lit "w") enc; EXdmfWriteMesh p m;
     EXdmfWriteFunction p u t; EXdmfWriteFunction p alpha t; EXdmfClose p] fs
  = <[p := [EXdmfWriteMesh p m; EXdmfWriteFunction p u t;
            EXdmfWriteFunction p alpha t]]> fs.
Proof.
  unfold replay. cbn [foldl]. cbn [apply_event].
  rewrite bool_decide_eq_true_2 by reflexivity.
  rewrite !lookup_insert_eq, !insert_insert_eq. reflexivity.
Qed.

Lemma replay_stored self parameters history_data u alpha t fs :
  let pp := ResultsStorage.parameters_path self in
  let ap := ResultsStorage.archive_path self in
  let tp := ResultsStorage.time_data_path self in
  let archive :=
    [EXdmfWriteMesh ap (mesh (function_space u));
     EXdmfWriteFunction ap u t; EXdmfWriteFunction ap alpha t] in
  replay (stored self parameters history_data u alpha t) fs
  = if (rank (ResultsStorage.comm self) =? 0)%nat then
      <[tp := [EJsonDump tp history_data]]>
        (<[ap := archive]> (<[pp := [EYamlDump pp parameters]]> fs))
    else <[ap := archive]> fs.
Proof.
  cbv zeta. unfold stored.
  destruct (rank (ResultsStorage.comm self) =? 0)%nat.
  - rewrite !replay_app, replay_archive.
    rewrite !replay_file; [reflexivity| |];
      cbn [apply_event]; rewrite lookup_insert_eq, insert_insert_eq;
      reflexivity.
  - rewrite app_nil_l, app_nil_r. apply replay_archive.
Qed.

Lemma lookup_after_stored self parameters history_data u alpha t fs :
  let pp := ResultsStorage.parameters_path self in
  let ap := ResultsStorage.archive_path self in
  let tp := ResultsStorage.time_data_path self in
  let after := replay (stored self parameters history_data u alpha t) fs in
  after !! ap
  = Some [EXdmfWriteMesh ap (mesh (function_space u));
          EXdmfWriteFunction ap u t; EXdmfWriteFunction ap alpha t]
  /\ after !! pp
     = (if (rank (ResultsStorage.comm self) =? 0)%nat
        then Some [EYamlDump pp parameters] else fs !! pp)
  /\ after !! tp
     = (if (rank (ResultsStorage.comm self) =? 0)%nat
        then Some [EJsonDump tp history_data] else fs !! tp)
  /\ forall p, p <> pp -> p <> ap -> p <> tp -> after !! p = fs !! p.
Proof.
  cbv zeta. rewrite replay_stored.
  destruct (paths_distinct self) as (Hpa & Hpt & Hat).
  destruct (rank (ResultsStorage.comm self) =? 0)%nat.
  - split; [|split; [|split]].
    + rewrite lookup_insert_ne by congruence. apply lookup_insert_eq.
    + rewrite !lookup_insert_ne by congruence. apply lookup_insert_eq.
    + apply lookup_insert_eq.
    + intros p H1 H2 H3. rewrite !lookup_insert_ne by congruence.
      reflexivity.
  - split; [|split; [|split]].
    + apply lookup_insert_eq.
    + apply lookup_insert_ne. congruence.
    + apply lookup_insert_ne. congruence.
    + intros p H1 H2 H3. apply lookup_insert_ne. congruence.
Qed.

(** X7. After a call that returns normally, whatever the files held
    before: the archive holds the mesh of [u] and the two fields tagged
    [t], and nothing else; and on rank 0 the parameters file holds the dump
    of [parameters] and [time_data.json] the dump of the whole history,
    each of them nothing else. *)
Theorem store_results_files_after
  (io : Event -> option Exn) (self : ResultsStorage.t) (parameters : PyVal)
  (history_data : gmap pystr (list Sample)) (state : gmap pystr Function)
  (env : Env) (reg : gmap pystr Logger) (fs : gmap pystr (list Event))
  (t : Sample) (u alpha : Function) :
  well_formed history_data state t u alpha ->
  let call :=
    ResultsStorage.store_results_io io self parameters history_data state
      env reg in
  outcome call = Ok tt ->
  let pp := ResultsStorage.parameters_path self in
  let ap := ResultsStorage.archive_path self in
  let tp := ResultsStorage.time_data_path self in
  let after := replay (events call) fs in
  after !! ap
  = Some [EXdmfWriteMesh ap (mesh (function_space u));
          EXdmfWriteFunction ap u t; EXdmfWriteFunction ap alpha t]
  /\ (rank (ResultsStorage.comm self) = 0%nat ->
      after !! pp = Some [EYamlDump pp parameters]
      /\ after !! tp = Some [EJsonDump tp history_data]).
Proof.
  intros Hwf. cbv zeta.
  rewrite (store_results_io_well_formed _ _ _ _ _ _ _ _ _ _ Hwf).
  intros Hok. rewrite (after_lookups_returns _ _ _ _ _ _ _ _ _ Hok).
  unfold events; cbn [snd].
  destruct (lookup_after_stored self parameters history_data u alpha t fs)
    as (Ha & Hp & Ht & _).
  split; [exact Ha|].
  intros Hr. rewrite Hr in Hp, Ht. auto.
Qed.

Lemma store_results_files_after_witness :
  let call :=
    ResultsStorage.store_results_io accepts_all (Ex.store Ex.rank0)
      Ex.parameters Ex.history Ex.state Ex.env ∅ in
  well_formed Ex.history Ex.state (1 # 5) Ex.field_u Ex.field_alpha
  /\ outcome call = Ok tt
  /\ replay (events call) ∅
     !! ResultsStorage.archive_path (Ex.store Ex.rank0)
     = Some [EXdmfWriteMesh (ResultsStorage.archive_path (Ex.store Ex.rank0))
               (mesh (function_space Ex.field_u));
             EXdmfWriteFunction
               (ResultsStorage.archive_path (Ex.store Ex.rank0))
               Ex.field_u (1 # 5);
             EXdmfWriteFunction
               (ResultsStorage.archive_path (Ex.store Ex.rank0))
               Ex.field_alpha (1 # 5)].
Proof.
  cbv zeta.
  split; [example_well_formed|].
  split; [vm_compute; reflexivity|].
  apply (store_results_files_after accepts_all (Ex.store Ex.rank0)
           Ex.parameters Ex.history Ex.state Ex.env ∅ ∅ (1 # 5) Ex.field_u
           Ex.field_alpha).
  - example_well_formed.
  - vm_compute; reflexivity.
Defined.

(** X8. The archive is opened with mode ['w'] at every call: after two
    calls with the same prefix it holds the mesh and the two fields of the
    second call only; the snapshot of the first call is gone. *)
Theorem store_results_second_call_overwrites
  (self : ResultsStorage.t) (parameters1 parameters2 : PyVal)
  (history1 history2 : gmap pystr (list Sample))
  (state1 state2 : gmap pystr Function)
  (env : Env) (reg : gmap pystr Logger) (fs : gmap pystr (list Event))
  (t1 t2 : Sample) (u1 alpha1 u2 alpha2 : Function) :
  well_formed history1 state1 t1 u1 alpha1 ->
  well_formed history2 state2 t2 u2 alpha2 ->
  let ap := ResultsStorage.archive_path self in
  let both :=
    (ResultsStorage.store_results self parameters1 history1 state1 ;;
     ResultsStorage.store_results self parameters2 history2 state2) env reg in
  outcome both = Ok tt
  /\ replay (events both) fs !! ap
     = Some [EXdmfWriteMesh ap (mesh (function_space u2));
             EXdmfWriteFunction ap u2 t2; EXdmfWriteFunction ap alpha2 t2].
Proof.
  intros H1 H2. cbv zeta.
  rewrite (bind_ok _ _ _ _ _ _ _
             (store_results_well_formed self parameters1 history1 state1
                env reg _ _ _ H1)).
  rewrite (store_results_well_formed _ _ _ _ _ _ _ _ _ H2).
  unfold outcome, events, registry_of; cbn [fst snd].
  split; [reflexivity|].
  rewrite replay_app.
  apply (lookup_after_stored self parameters2 history2 u2 alpha2 t2).
Qed.

Lemma store_results_second_call_overwrites_witness :
  well_formed Ex.history Ex.state (1 # 5) Ex.field_u Ex.field_alpha
  /\ well_formed {[ lit "load" := [0; 1 # 10; 1 # 5; 3 # 10]%Q ]}
       Ex.state_two_meshes (3 # 10) Ex.field_u Ex.field_alpha'
  /\ outcome
       ((ResultsStorage.store_results (Ex.store Ex.rank0) Ex.parameters
           Ex.history Ex.state ;;
         ResultsStorage.store_results (Ex.store Ex.rank0) Ex.parameters
           {[ lit "load" := [0; 1 # 10; 1 # 5; 3 # 10]%Q ]}
           Ex.state_two_meshes) Ex.env ∅)
     = Ok tt.
Proof.
  split; [example_well_formed|].
  split; [example_well_formed|].
  apply (store_results_second_call_overwrites (Ex.store Ex.rank0)
           Ex.parameters Ex.parameters Ex.history
           {[ lit "load" := [0; 1 # 10; 1 # 5; 3 # 10]%Q ]}
           Ex.state Ex.state_two_meshes Ex.env ∅ ∅ (1 # 5) (3 # 10)
           Ex.field_u Ex.field_alpha Ex.field_u Ex.field_alpha').
  - example_well_formed.
  - example_well_formed.
Defined.

(** X9. Of the history only the last entry of ['load'] reaches the
    archive, and the parameters do not reach it at all: two calls whose
    states agree and whose ['load'] series end alike issue the same archive
    operations, whatever else their histories and parameters hold. *)
Theorem store_results_archive_frame
  (self : ResultsStorage.t) (parameters1 parameters2 : PyVal)
  (history1 history2 : gmap pystr (list Sample))
  (state : gmap pystr Function)
  (env1 env2 : Env) (reg1 reg2 : gmap pystr Logger)
  (t : Sample) (u alpha : Function) :
  well_formed history1 state t u alpha ->
  well_formed history2 state t u alpha ->
  collective
    (events (ResultsStorage.store_results self parameters1 history1 state
               env1 reg1))
  = collective
      (events (ResultsStorage.store_results self parameters2 history2 state
                 env2 reg2)).
Proof.
  intros H1 H2.
  rewrite (store_results_well_formed _ _ _ _ _ _ _ _ _ H1).
  rewrite (store_results_well_formed _ _ _ _ _ _ _ _ _ H2).
  unfold events; cbn [snd]. rewrite !stored_collective. reflexivity.
Qed.

Lemma store_results_archive_frame_witness :
  well_formed Ex.history Ex.state (1 # 5) Ex.field_u Ex.field_alpha
  /\ well_formed
       (<[lit "elastic_energy" := [1; 2]%Q]> {[ lit "load" := [1 # 5]%Q ]})
       Ex.state (1 # 5) Ex.field_u Ex.field_alpha
  /\ collective
       (events (ResultsStorage.store_results (Ex.store Ex.rank0)
                  Ex.parameters Ex.history Ex.state Ex.env ∅))
     = collective
         (events (ResultsStorage.store_results (Ex.store Ex.rank0) VNone
                    (<[lit "elastic_energy" := [1; 2]%Q]>
                       {[ lit "load" := [1 # 5]%Q ]})
                    Ex.state Ex.env_broken_stderr ∅)).
Proof.
  split; [example_well_formed|].
  split; [example_well_formed|].
  apply (store_results_archive_frame (Ex.store Ex.rank0) Ex.parameters VNone
           Ex.history
           (<[lit "elastic_energy" := [1; 2]%Q]>
              {[ lit "load" := [1 # 5]%Q ]})
           Ex.state Ex.env Ex.env_broken_stderr ∅ ∅ (1 # 5) Ex.field_u
           Ex.field_alpha).
  - example_well_formed.
  - example_well_formed.
Defined.

(** ** More on the logger *)

Lemma handleError_run record env reg :
  logging.handleError record env reg = (Ok tt, reg, reported env).
Proof.
  unfold logging.handleError, logging.handleError_io,
    logging.stream_write_io, logging.logging_error, refuse, attempt,
    accepts_all, reported, try_except, bind, stream_write, buffer_write, ask,
    bind.
  cbn [accepts_text].
  destruct (bool_decide (Stderr ∈ broken env)); reflexivity.
Qed.

Lemma emit_run h record env reg :
  logging.emit h record env reg = (Ok tt, reg, emitted env h record).
Proof.
  pose proof (handleError_run record env reg) as Hh.
  change (logging.handleError_io (fun _ => None) record env reg
          = (Ok tt, reg, reported env)) in Hh.
  unfold logging.emit, logging.emit_io, emitted, try_except, logging.format,
    logging.sink_write_io, logging.sink_flush_io, logging.stream_write_io,
    logging.stream_flush_io, refuse, attempt, accepts_all, bind,
    stream_write, stream_flush, buffer_write, ask, bind, formatted.
  destruct (h_sink h) as [s|path]; [|reflexivity].
  cbn [ret].
  match goal with
  | |- context [accepts_text s ?t] => destruct (accepts_text s t)
  end; cbn [negb ret raise tell].
  - destruct (bool_decide (s ∈ broken env)); cbn [orb ret raise tell].
    + rewrite Hh. reflexivity.
    + destruct (bool_decide (s ∈ flush_broken env)); cbn [ret raise tell].
      * rewrite Hh. reflexivity.
      * reflexivity.
  - rewrite Hh. reflexivity.
Qed.

Lemma callEach_run hs record env reg :
  logging.callEach hs record env reg = (Ok tt, reg, dispatched env hs record).
Proof.
  unfold logging.callEach.
  induction hs as [|h hs IH]; [reflexivity|].
  cbn [logging.callEach_io]. unfold bind. unfold dispatched.
  cbn [map concat].
  destruct (h_level h <=? logging.r_levelno record)%nat.
  - pose proof (emit_run h record env reg) as He.
    unfold logging.emit in He. rewrite He, IH. reflexivity.
  - cbn [ret]. rewrite IH. reflexivity.
Qed.

Lemma dispatched_app env hs1 hs2 record :
  dispatched env (hs1 ++ hs2) record
  = dispatched env hs1 record ++ dispatched env hs2 record.
Proof. unfold dispatched. rewrite map_app, concat_app. reflexivity. Qed.

(** A logger with handlers passes a record of a sufficient level to each
    of them. *)
Lemma log_run logger level msg env reg lg :
  reg !! logger = Some lg ->
  l_handlers lg <> [] ->
  (0 < l_level lg)%nat ->
  (l_level lg <= level)%nat ->
  logging.log logger level msg env reg
  = (Ok tt, reg,
     dispatched env (l_handlers lg)
       {| logging.r_name := logger; logging.r_levelno := level;
          logging.r_message := msg |}).
Proof.
  intros Hlg Hhs Hpos Hle.
  unfold logging.log, logging.log_io, bind, get_registry,
    logging.the_logger.
  rewrite Hlg. cbn [default from_option]. unfold id.
  unfold logging.isEnabledFor, logging.getEffectiveLevel, logging.NOTSET,
    logging.manager_disable.
  assert (E0 : (level <=? 0)%nat = false) by (apply Nat.leb_gt; lia).
  assert (E1 : (l_level lg =? 0)%nat = false) by (apply Nat.eqb_neq; lia).
  assert (E2 : (l_level lg <=? level)%nat = true) by (apply Nat.leb_le; lia).
  rewrite E0, E1, E2. unfold logging.callHandlers_io.
  rewrite app_nil_r.
  destruct (l_handlers lg) as [|h hs] eqn:E; [contradiction|].
  pose proof (callEach_run (h :: hs)
                {| logging.r_name := logger; logging.r_levelno := level;
                   logging.r_message := msg |} env reg) as Hc.
  unfold logging.callEach in Hc. rewrite Hc. reflexivity.
Qed.

Lemma threshold_positive c : (0 < threshold c)%nat.
Proof.
  unfold threshold, logging.INFO, logging.CRITICAL.
  destruct (rank c =? 0)%nat; lia.
Qed.

Lemma configured_level c reg : l_level (configured c reg) = threshold c.
Proof. reflexivity. Qed.

Lemma configured_handlers c reg :
  l_handlers (configured c reg)
  = l_handlers (logging.the_logger reg evolver) ++ evolver_handlers c.
Proof. reflexivity. Qed.

Lemma log_after_setup c reg level msg env :
  let after := <[evolver := configured c reg]> reg in
  logging.log evolver level msg env after
  = (Ok tt, after,
     if (threshold c <=? level)%nat then
       dispatched env
         (l_handlers (logging.the_logger reg evolver) ++ evolver_handlers c)
         {| logging.r_name := evolver; logging.r_levelno := level;
            logging.r_message := msg |}
     else []).
Proof.
  cbv zeta. pose proof (threshold_positive c) as Hpos.
  destruct (threshold c <=? level)%nat eqn:E.
  - apply Nat.leb_le in E.
    rewrite (log_run _ _ _ _ _ (configured c reg)).
    + rewrite configured_handlers. reflexivity.
    + apply lookup_insert_eq.
    + rewrite configured_handlers. intros H.
      apply app_eq_nil in H as [_ H]. discriminate H.
    + rewrite configured_level. exact Hpos.
    + rewrite configured_level. exact E.
  - apply Nat.leb_gt in E.
    apply (log_below_level _ _ _ _ _ (configured c reg)).
    + apply lookup_insert_eq.
    + rewrite configured_level. exact Hpos.
    + rewrite configured_level. exact E.
Qed.

Lemma the_logger_fresh (reg : gmap pystr Logger) name :
  reg !! name = None -> logging.the_logger reg name = logging.fresh_logger.
Proof. intros H. unfold logging.the_logger. rewrite H. reflexivity. Qed.

(** What [setup_logger_mpi] issues: the opening of the log file and what
    its three records make the handlers issue. *)
Lemma setup_logger_mpi_events (c : Comm) (root_priority : nat) env reg :
  let after := <[evolver := configured c reg]> reg in
  events (setup_logger_mpi c root_priority env reg)
  = EOpen (lit "evolution.log") (lit "a")
    :: events (logging.log evolver logging.INFO spawning_message env after)
    ++ events
         (logging.log evolver logging.INFO (reporting_message c) env after)
    ++ events
         (logging.log evolver logging.CRITICAL (version_message env) env
            after).
Proof.
  cbv zeta. unfold setup_logger_mpi, setup_logger_mpi_io. cbv beta zeta.
  do 5 step_events.
  unfold logging.Handler_setLevel, logging.Handler_setFormatter,
    logging.StreamHandler; cbn [h_sink h_level h_formatter].
  rewrite (configured_registry c reg) by reflexivity.
  unfold logging.info_io, logging.critical_io.
  change (logging.log_io accepts_all []) with logging.log.
  fold spawning_message. fold (reporting_message c).
  rewrite (events_bind _ _ _ _ _ _ _ (log_after_setup c reg _ _ env)).
  rewrite (events_bind _ _ _ _ _ _ _ (log_after_setup c reg _ _ env)).
  step_events. fold (version_message env).
  rewrite (events_bind _ _ _ _ _ _ _ (log_after_setup c reg _ _ env)).
  rewrite !log_after_setup.
  unfold events, ret; cbn [fst snd app]. rewrite !app_nil_r. reflexivity.
Qed.

Lemma count_app (p : Event -> bool) (l1 l2 : list Event) :
  count p (l1 ++ l2) = (count p l1 + count p l2)%nat.
Proof. unfold count. rewrite List.filter_app, length_app. reflexivity. Qed.

Lemma count_reported env : count is_log_record (reported env) = 0%nat.
Proof.
  unfold reported. destruct (bool_decide (Stderr ∈ broken env)); reflexivity.
Qed.

(** Of the two handlers of the logger, the file handler alone appends to
    [evolution.log], whatever becomes of the console line. *)
Lemma count_dispatched_evolver env c record :
  (threshold c <= logging.r_levelno record)%nat ->
  count is_log_record (dispatched env (evolver_handlers c) record) = 1%nat.
Proof.
  intros Hle. apply Nat.leb_le in Hle.
  unfold dispatched, evolver_handlers.
  cbn [map concat h_level]. rewrite Hle, app_nil_r, count_app.
  unfold emitted. cbn [h_sink accepts_text negb].
  assert (Hfile : forall line,
    count is_log_record
      [EFileWrite (lit "evolution.log") line;
       EFileFlush (lit "evolution.log")] = 1%nat).
  { intros line. unfold count. cbn.
    rewrite bool_decide_eq_true_2 by reflexivity. reflexivity. }
  rewrite Hfile.
  destruct (bool_decide (Stderr ∈ broken env)); [rewrite count_reported; lia|].
  destruct (bool_decide (Stderr ∈ flush_broken env)); [|reflexivity].
  change (EWrite Stderr ?l :: reported env)
    with ([EWrite Stderr l] ++ reported env).
  rewrite count_app, count_reported. reflexivity.
Qed.

Lemma count_log_after_setup c reg level msg env :
  reg !! evolver = None ->
  count is_log_record
    (events
       (logging.log evolver level msg env
          (<[evolver := configured c reg]> reg)))
  = if (threshold c <=? level)%nat then 1%nat else 0%nat.
Proof.
  intros Hnew. rewrite log_after_setup. unfold events; cbn [snd].
  rewrite (the_logger_fresh _ _ Hnew).
  cbn [logging.fresh_logger l_handlers app].
  destruct (threshold c <=? level)%nat eqn:E; [|reflexivity].
  apply count_dispatched_evolver. cbn. apply Nat.leb_le. exact E.
Qed.

Lemma count_setup_logger_mpi (c : Comm) (root_priority : nat) env reg :
  reg !! evolver = None ->
  count is_log_record (events (setup_logger_mpi c root_priority env reg))
  = if (rank c =? 0)%nat then 3%nat else 1%nat.
Proof.
  intros Hnew. rewrite setup_logger_mpi_events.
  change (EOpen (lit "evolution.log") (lit "a") :: ?l)
    with ([EOpen (lit "evolution.log") (lit "a")] ++ l).
  rewrite !count_app, !(count_log_after_setup _ _ _ _ _ Hnew).
  unfold threshold, logging.INFO, logging.CRITICAL.
  destruct (rank c =? 0)%nat; reflexivity.
Qed.

Lemma sum_list_const (g : nat -> nat) (k start len : nat) :
  (forall r, (1 <= r)%nat -> g r = k) ->
  (1 <= start)%nat ->
  sum_list (map g (seq start len)) = (len * k)%nat.
Proof.
  intros Hg. revert start. induction len as [|len IH]; intros start Hs.
  - reflexivity.
  - cbn. rewrite (Hg start Hs), (IH (S start)) by lia. unfold id. lia.
Qed.

Lemma total_spmd_split {A} (f : list Event -> nat) (prog : Comm -> M A)
  (n k : nat) env reg :
  (forall c, rank c <> 0%nat -> f (events (prog c env reg)) = k) ->
  total f (spmd (S n) prog env reg)
  = (f (events (prog {| rank := 0; size := S n |} env reg)) + n * k)%nat.
Proof.
  intros Hf. unfold total, spmd. rewrite map_map. cbn [seq map sum_list].
  rewrite (sum_list_const
             (fun r => f (events (prog {| rank := r; size := S n |} env reg)))
             k).
  - unfold id. lia.
  - intros r Hr. apply Hf. cbn. lia.
  - lia.
Qed.

Lemma setup_logger_mpi_times (c : Comm) (root_priority : nat) env (k : nat) :
  forall reg,
    outcome (times (S k) (setup_logger_mpi c root_priority) env reg) = Ok tt
    /\ registry_of (times (S k) (setup_logger_mpi c root_priority) env reg)
       = <[evolver :=
             {| l_level := threshold c;
                l_handlers :=
                  l_handlers (logging.the_logger reg evolver) ++
                  concat (replicate (S k) (evolver_handlers c)) |}]> reg.
Proof.
  induction k as [|k IH]; intros reg;
    destruct (setup_logger_mpi_run c root_priority env reg) as [Hout Hreg];
    destruct (setup_logger_mpi c root_priority env reg) as [[r reg1] evs]
      eqn:E;
    unfold outcome, registry_of in Hout, Hreg; cbn [fst snd] in Hout, Hreg;
    subst r reg1; cbn [times].
  - rewrite (outcome_bind _ _ _ _ _ _ _ E), (registry_of_bind _ _ _ _ _ _ _ E).
    split; [reflexivity|]. unfold registry_of, ret; cbn [fst snd].
    cbn [replicate concat]. rewrite app_nil_r. reflexivity.
  - rewrite (outcome_bind _ _ _ _ _ _ _ E), (registry_of_bind _ _ _ _ _ _ _ E).
    cbv beta.
    destruct (IH (<[evolver := configured c reg]> reg)) as [IHo IHr].
    split; [exact IHo|]. etransitivity; [exact IHr|].
    rewrite the_logger_insert, insert_insert_eq, configured_handlers,
      <- app_assoc.
    reflexivity.
Qed.

(** X10. The argument [root_priority] has no effect: any two values give
    the same run, and on rank 0 the logger and its handlers stay at [INFO],
    so that a record below [INFO] (a [DEBUG] one, say) issues nothing even
    after [setup_logger_mpi(logging.DEBUG)]. *)
Theorem setup_logger_mpi_ignores_root_priority
  (c : Comm) (p1 p2 level : nat) (msg : pystr) (env env' : Env)
  (reg : gmap pystr Logger) :
  rank c = 0%nat ->
  (level < logging.INFO)%nat ->
  setup_logger_mpi c p1 env reg = setup_logger_mpi c p2 env reg
  /\ let after := registry_of (setup_logger_mpi c p1 env reg) in
     logging.log evolver level msg env' after = (Ok tt, after, []).
Proof.
  intros Hr Hlevel. split; [reflexivity|]. cbv zeta.
  destruct (setup_logger_mpi_run c p1 env reg) as [_ ->].
  rewrite log_after_setup.
  replace (threshold c <=? level)%nat with false; [reflexivity|].
  symmetry. apply Nat.leb_gt. unfold threshold. rewrite Hr. exact Hlevel.
Qed.

Lemma setup_logger_mpi_ignores_root_priority_witness :
  rank Ex.rank0 = 0%nat
  /\ (logging.DEBUG < logging.INFO)%nat
  /\ setup_logger_mpi Ex.rank0 logging.DEBUG Ex.env ∅
     = setup_logger_mpi Ex.rank0 logging.WARNING Ex.env ∅.
Proof.
  split; [reflexivity|].
  split; [vm_compute; lia|].
  apply (setup_logger_mpi_ignores_root_priority Ex.rank0 logging.DEBUG
           logging.WARNING logging.DEBUG (lit "residual 1e-3") Ex.env Ex.env
           ∅).
  - reflexivity.
  - vm_compute; lia.
Defined.

Lemma format_run fmt record env reg :
  logging.format fmt record env reg = (Ok (formatted env fmt record), reg, []).
Proof. reflexivity. Qed.

Lemma stream_write_io_accepted io (s : Stream) (line : pystr) env reg :
  io (EWrite s line) = None ->
  accepts_text s line = true ->
  s ∉ broken env ->
  logging.stream_write_io io s line env reg = (Ok tt, reg, [EWrite s line]).
Proof.
  intros Hw Ht Hb. unfold logging.stream_write_io, refuse. rewrite Hw.
  unfold stream_write. rewrite Ht. unfold buffer_write, bind, ask.
  rewrite (bool_decide_eq_false_2 _ Hb). reflexivity.
Qed.

Lemma stream_flush_io_accepted io (s : Stream) env reg :
  io (EFlush s) = None ->
  s ∉ broken env ->
  s ∉ flush_broken env ->
  logging.stream_flush_io io s env reg = (Ok tt, reg, [EFlush s]).
Proof.
  intros Hf Hb Hfb. unfold logging.stream_flush_io, refuse. rewrite Hf.
  unfold stream_flush, bind, ask.
  rewrite (bool_decide_eq_false_2 _ Hb), (bool_decide_eq_false_2 _ Hfb).
  reflexivity.
Qed.

Lemma emit_io_stream_accepted io (s : Stream) lvl fmt record env reg :
  let line := formatted env fmt record ++ logging.terminator in
  io (EWrite s line) = None ->
  io (EFlush s) = None ->
  accepts_text s line = true ->
  s ∉ broken env ->
  s ∉ flush_broken env ->
  logging.emit_io io
    {| h_sink := ToStream s; h_level := lvl; h_formatter := fmt |} record
    env reg
  = (Ok tt, reg, [EWrite s line; EFlush s]).
Proof.
  cbv zeta. intros Hw Hf Ht Hb Hfb.
  unfold logging.emit_io, try_except, logging.sink_write_io,
    logging.sink_flush_io.
  cbn [h_sink h_formatter].
  rewrite (bind_ok _ _ _ _ _ _ _ (format_run fmt record env reg)).
  rewrite (bind_ok _ _ _ _ _ _ _
             (stream_write_io_accepted io s _ env reg Hw Ht Hb)).
  rewrite (stream_flush_io_accepted io s env reg Hf Hb Hfb).
  reflexivity.
Qed.

Lemma emit_io_file_accepted io (path : pystr) lvl fmt record env reg :
  let line := formatted env fmt record ++ logging.terminator in
  io (EFileWrite path line) = None ->
  io (EFileFlush path) = None ->
  logging.emit_io io
    {| h_sink := ToFile path; h_level := lvl; h_formatter := fmt |} record
    env reg
  = (Ok tt, reg, [EFileWrite path line; EFileFlush path]).
Proof.
  cbv zeta. intros Hw Hf.
  unfold logging.emit_io, try_except, logging.sink_write_io,
    logging.sink_flush_io.
  cbn [h_sink h_formatter].
  rewrite (bind_ok _ _ _ _ _ _ _ (format_run fmt record env reg)).
  assert (H1 : attempt io
                 (EFileWrite path
                    (formatted env fmt record ++ logging.terminator)) env reg
               = (Ok tt, reg,
                  [EFileWrite path
                     (formatted env fmt record ++ logging.terminator)])).
  { unfold attempt. rewrite Hw. reflexivity. }
  assert (H2 : attempt io (EFileFlush path) env reg
               = (Ok tt, reg, [EFileFlush path])).
  { unfold attempt. rewrite Hf. reflexivity. }
  rewrite (bind_ok _ _ _ _ _ _ _ H1), H2. reflexivity.
Qed.

(** X11. After [setup_logger_mpi] in a process where the logger did not
    exist, a record whose level reaches the threshold ([INFO] on rank 0,
    [CRITICAL] elsewhere) is printed as
    ['asctime - E•volver - LEVEL - message'] and a line end, on standard
    error and then in [evolution.log], when both accept the line; after
    that the record is passed on to the handlers of the root logger. *)
Theorem log_after_setup_logger_mpi
  (io : Event -> option Exn) (root : list Handler) (c : Comm)
  (root_priority level : nat) (msg : pystr) (env env' : Env)
  (reg : gmap pystr Logger) :
  reg !! evolver = None ->
  (threshold c <= level)%nat ->
  let after := registry_of (setup_logger_mpi c root_priority env reg) in
  let record :=
    {| logging.r_name := evolver; logging.r_levelno := level;
       logging.r_message := msg |} in
  let line :=
    asctime env' ++ lit " - " ++ evolver ++ lit " - " ++
    logging.getLevelName level ++ lit " - " ++ msg ++ [10] in
  let printed :=
    [EWrite Stderr line; EFlush Stderr;
     EFileWrite (lit "evolution.log") line;
     EFileFlush (lit "evolution.log")] in
  Stderr ∉ broken env' ->
  Stderr ∉ flush_broken env' ->
  undisturbed io printed ->
  let passed_on := logging.callEach_io io root record env' after in
  logging.log_io io root evolver level msg env' after
  = (outcome passed_on, registry_of passed_on, printed ++ events passed_on).
Proof.
  intros Hnew Hle. cbv zeta. intros Hb Hfb Hio.
  destruct (setup_logger_mpi_run c root_priority env reg) as [_ ->].
  pose proof (threshold_positive c) as Hpos.
  assert (Hline :
    formatted env'
      (Some [FAsctime; FLit (lit " - "); FName; FLit (lit " - ");
             FLevelname; FLit (lit " - "); FMessage])
      {| logging.r_name := evolver; logging.r_levelno := level;
         logging.r_message := msg |} ++ logging.terminator
    = asctime env' ++ lit " - " ++ evolver ++ lit " - " ++
      logging.getLevelName level ++ lit " - " ++ msg ++ [10]).
  { unfold formatted, logging.terminator.
    cbn [default from_option logging.r_name logging.r_levelno
           logging.r_message].
    unfold id. cbn [map concat].
    rewrite app_nil_r, <- !app_assoc. reflexivity. }
  unfold undisturbed in Hio.
  pose proof (Hio _ (or_introl eq_refl)) as H1.
  pose proof (Hio _ (or_intror (or_introl eq_refl))) as H2.
  pose proof (Hio _ (or_intror (or_intror (or_introl eq_refl)))) as H3.
  pose proof (Hio _ (or_intror (or_intror (or_intror (or_introl eq_refl)))))
    as H4.
  rewrite <- Hline in H1, H3.
  unfold logging.log_io, bind, get_registry.
  rewrite the_logger_insert.
  unfold logging.isEnabledFor, logging.getEffectiveLevel, logging.NOTSET,
    logging.manager_disable.
  rewrite configured_level.
  assert (E0 : (level <=? 0)%nat = false) by (apply Nat.leb_gt; lia).
  assert (E1 : (threshold c =? 0)%nat = false) by (apply Nat.eqb_neq; lia).
  assert (E2 : (threshold c <=? level)%nat = true) by (apply Nat.leb_le; lia).
  rewrite E0, E1, E2.
  unfold logging.callHandlers_io.
  rewrite configured_handlers, (the_logger_fresh _ _ Hnew).
  unfold evolver_handlers, logging.fresh_logger.
  cbn [l_handlers app logging.callEach_io h_level logging.r_levelno].
  rewrite E2. unfold bind.
  rewrite (emit_io_stream_accepted io Stderr _ _ _ env' _ H1 H2 eq_refl Hb
             Hfb).
  rewrite (emit_io_file_accepted io (lit "evolution.log") _ _ _ env' _ H3 H4).
  rewrite Hline.
  destruct (logging.callEach_io io root _ env' _) as [[r reg2] ev2].
  reflexivity.
Qed.

Lemma log_after_setup_logger_mpi_witness :
  let after := registry_of (setup_logger_mpi Ex.rank0 logging.INFO Ex.env ∅) in
  let line :=
    asctime Ex.env ++ lit " - " ++ evolver ++ lit " - " ++
    logging.getLevelName logging.WARNING ++ lit " - " ++ lit "step 3" ++ [10]
  in
  (∅ : gmap pystr Logger) !! evolver = None
  /\ (threshold Ex.rank0 <= logging.WARNING)%nat
  /\ (Stderr ∉ broken Ex.env)
  /\ (Stderr ∉ flush_broken Ex.env)
  /\ logging.log_io accepts_all [] evolver logging.WARNING (lit "step 3")
       Ex.env after
     = (Ok tt, after,
        [EWrite Stderr line; EFlush Stderr;
         EFileWrite (lit "evolution.log") line;
         EFileFlush (lit "evolution.log")] ++ []).
Proof.
  cbv zeta.
  split; [reflexivity|].
  split; [vm_compute; lia|].
  split; [vm_compute; apply not_elem_of_nil|].
  split; [vm_compute; apply not_elem_of_nil|].
  apply (log_after_setup_logger_mpi accepts_all [] Ex.rank0 logging.INFO
           logging.WARNING (lit "step 3") Ex.env Ex.env ∅).
  - reflexivity.
  - vm_compute; lia.
  - vm_compute; apply not_elem_of_nil.
  - vm_compute; apply not_elem_of_nil.
  - intros e _. reflexivity.
Defined.

Lemma setLevel_after_getLogger (reg : gmap pystr Logger) (level : nat) :
  let reg1 := match reg !! evolver with
              | Some _ => reg
              | None => <[evolver := logging.fresh_logger]> reg
              end in
  <[evolver := {| l_level := level;
                  l_handlers :=
                    l_handlers (logging.the_logger reg1 evolver) |}]> reg1
  = <[evolver := {| l_level := level;
                    l_handlers :=
                      l_handlers (logging.the_logger reg evolver) |}]> reg.
Proof.
  cbv zeta. destruct (reg !! evolver) eqn:E; [reflexivity|].
  rewrite the_logger_insert, insert_insert_eq.
  unfold logging.the_logger. rewrite E. reflexivity.
Qed.

Lemma FileHandler_io_run io path env reg :
  io (EOpen path (lit "a")) = None ->
  logging.FileHandler_io io path env reg
  = (Ok {| h_sink := ToFile path; h_level := logging.NOTSET;
           h_formatter := None |},
     reg, [EOpen path (lit "a")]).
Proof.
  intros H. unfold logging.FileHandler_io, bind, attempt. rewrite H.
  reflexivity.
Qed.

Lemma guarded_ask {B} io (k : Env -> M B) (b : B) :
  (forall env, guarded io b (k env)) -> guarded io b (bind ask k).
Proof.
  intros Hk env reg. unfold bind, ask.
  destruct (Hk env env reg) as [[evs H]|(e & evs & H & He)]; rewrite H.
  - left. eexists. reflexivity.
  - right. exists e. eexists. split; [reflexivity|exact He].
Qed.

(** The three records of [setup_logger_mpi]. *)
Lemma guarded_records io root (c : Comm) :
  guarded io evolver
    (logging.info_io io root evolver
       (lit "The root process spawning an evolution computation (rank 0)") ;;
     logging.info_io io root evolver
       (lit "This is process " ++ str_of_nat (rank c) ++ lit " reporting") ;;
     env <- ask ;;
     logging.critical_io io root evolver
       (lit "DOLFINx version: " ++ dolfinx_version env ++
        lit " based on GIT commit: " ++ dolfinx_git_commit_hash env ++
        lit " of https://github.com/FEniCS/dolfinx/") ;;
     ret evolver).
Proof.
  apply (guarded_bind io _ _ tt); [apply guarded_log_io|].
  apply (guarded_bind io _ _ tt); [apply guarded_log_io|].
  apply guarded_ask. intros env.
  apply (guarded_bind io _ _ tt); [apply guarded_log_io|].
  apply guarded_ret.
Qed.

(** X12. [setup_logger_mpi] opens [evolution.log] when it builds the file
    handler, before it attaches any handler.  When the file cannot be
    opened the call raises that exception, having created the logger and
    set its level, with no handler attached, not even the console handler,
    and nothing logged.  When the file is opened the logger gets its two
    handlers, and the call returns the logger, unless a handler fails and
    the report of that failure on standard error is refused with an
    exception that is no [OSError]. *)
Theorem setup_logger_mpi_log_file
  (io : Event -> option Exn) (root : list Handler) (c : Comm)
  (root_priority : nat) (env : Env) (reg : gmap pystr Logger) :
  let run := setup_logger_mpi_io io root c root_priority env reg in
  (forall e,
     io (EOpen (lit "evolution.log") (lit "a")) = Some e ->
     run
     = (Raise e,
        <[evolver := {| l_level := threshold c;
                        l_handlers :=
                          l_handlers (logging.the_logger reg evolver) |}]>
          reg,
        []))
  /\ (io (EOpen (lit "evolution.log") (lit "a")) = None ->
      registry_of run = <[evolver := configured c reg]> reg
      /\ (outcome run = Ok evolver
          \/ exists e,
               outcome run = Raise e
               /\ is_OSError e = false
               /\ (io (EWrite Stderr logging.logging_error) = Some e
                   \/ io (ETraceback Stderr) = Some e))).
Proof.
  cbv zeta. unfold setup_logger_mpi_io. cbv beta zeta.
  rewrite (bind_ok _ _ _ _ _ _ _ (getLogger_run evolver env reg)).
  rewrite (bind_ok _ _ _ _ _ _ _ (setLevel_run evolver _ env _)).
  rewrite setLevel_after_getLogger. fold (threshold c).
  split.
  - intros e He.
    assert (Hopen : forall reg',
      logging.FileHandler_io io (lit "evolution.log") env reg'
      = (Raise e, reg', [])).
    { intros reg'. unfold logging.FileHandler_io, bind, attempt.
      rewrite He. reflexivity. }
    rewrite (bind_raise _ _ _ _ _ _ _ (Hopen _)). reflexivity.
  - intros Hopen.
    rewrite (bind_ok _ _ _ _ _ _ _
               (FileHandler_io_run io (lit "evolution.log") env _ Hopen)).
    rewrite (bind_ok _ _ _ _ _ _ _ (addHandler_run evolver _ env _)).
    rewrite (bind_ok _ _ _ _ _ _ _ (addHandler_run evolver _ env _)).
    match goal with
    | |- context [registry_of (?m env ?r)] =>
        assert (Hreg : r = <[evolver := configured c reg]> reg)
    end.
    { rewrite !the_logger_insert. cbn [l_level l_handlers].
      rewrite !insert_insert_eq, <- app_assoc. reflexivity. }
    rewrite Hreg.
    destruct (guarded_records io root c env
                (<[evolver := configured c reg]> reg))
      as [[evs H]|(e & evs & H & He)]; rewrite H;
      unfold outcome, registry_of; cbn [fst snd].
    + split; [reflexivity|]. left. reflexivity.
    + split; [reflexivity|]. right. exists e. split; [reflexivity|exact He].
Qed.

Lemma setup_logger_mpi_log_file_witness :
  ExIO.read_only_log (EOpen (lit "evolution.log") (lit "a"))
  = Some (OSErrorOn (lit "evolution.log"))
  /\ setup_logger_mpi_io ExIO.read_only_log [] Ex.rank0 logging.INFO Ex.env ∅
     = (Raise (OSErrorOn (lit "evolution.log")),
        <[evolver := {| l_level := threshold Ex.rank0;
                        l_handlers :=
                          l_handlers (logging.the_logger ∅ evolver) |}]> ∅,
        []).
Proof.
  assert (H : ExIO.read_only_log (EOpen (lit "evolution.log") (lit "a"))
              = Some (OSErrorOn (lit "evolution.log")))
    by (vm_compute; reflexivity).
  split; [exact H|].
  apply (setup_logger_mpi_log_file ExIO.read_only_log [] Ex.rank0
           logging.INFO Ex.env ∅).
  exact H.
Defined.

(** X13. Every process appends to [evolution.log]: when [n + 1] processes
    in which the logger is new run [setup_logger_mpi], the file gets
    [n + 3] records, three from rank 0 and the version record from each of
    the others. *)
Theorem setup_logger_mpi_records_of_all_ranks
  (n root_priority : nat) (env : Env) (reg : gmap pystr Logger) :
  reg !! evolver = None ->
  total (count is_log_record)
    (spmd (S n) (fun c => setup_logger_mpi c root_priority) env reg)
  = (n + 3)%nat.
Proof.
  intros Hnew. rewrite (total_spmd_split _ _ _ 1).
  - rewrite (count_setup_logger_mpi _ _ _ _ Hnew). cbn [rank Nat.eqb]. lia.
  - intros c Hc. rewrite (count_setup_logger_mpi _ _ _ _ Hnew).
    apply Nat.eqb_neq in Hc. rewrite Hc. reflexivity.
Qed.

Lemma setup_logger_mpi_records_of_all_ranks_witness :
  (∅ : gmap pystr Logger) !! evolver = None
  /\ total (count is_log_record)
       (spmd 4 (fun c => setup_logger_mpi c logging.INFO) Ex.env ∅)
     = 6%nat.
Proof.
  split; [reflexivity|].
  apply (setup_logger_mpi_records_of_all_ranks 3 logging.INFO Ex.env ∅).
  reflexivity.
Defined.

(** X14. Each call of [setup_logger_mpi] adds a console handler and a file
    handler to the one logger ['E•volver'] and removes none: after [k + 1]
    calls in a process the logger has the handlers it had before, followed
    by [k + 1] times the pair of a console handler and a file handler on
    [evolution.log], so [2 * (k + 1)] handlers more than before. *)
Theorem setup_logger_mpi_accumulates_handlers
  (c : Comm) (root_priority k : nat) (env : Env) (reg : gmap pystr Logger) :
  let before := l_handlers (logging.the_logger reg evolver) in
  let after :=
    registry_of (times (S k) (setup_logger_mpi c root_priority) env reg) in
  after !! evolver
  = Some {| l_level := threshold c;
            l_handlers :=
              before ++ concat (replicate (S k) (evolver_handlers c)) |}
  /\ length (l_handlers (logging.the_logger after evolver))
     = (length before + 2 * S k)%nat.
Proof.
  cbv zeta.
  destruct (setup_logger_mpi_times c root_priority env k reg) as [_ ->].
  rewrite the_logger_insert, lookup_insert_eq. cbn [l_handlers].
  split; [reflexivity|].
  rewrite length_app. f_equal.
  generalize (S k). intros m. induction m as [|m IH]; [reflexivity|].
  cbn [replicate concat]. rewrite length_app, IH. cbn. lia.
Qed.

(** X15. [setup_logger_mpi] changes the logger ['E•volver'] and no other
    logger of the process; it sets that logger's level anew and keeps the
    handlers the logger had, putting its two handlers behind them. *)
Theorem setup_logger_mpi_frame
  (c : Comm) (root_priority : nat) (env : Env) (reg : gmap pystr Logger)
  (other : pystr) :
  other <> evolver ->
  let after := registry_of (setup_logger_mpi c root_priority env reg) in
  after !! other = reg !! other
  /\ after !! evolver
     = Some {| l_level := threshold c;
               l_handlers :=
                 l_handlers (logging.the_logger reg evolver) ++
                 evolver_handlers c |}.
Proof.
  intros Hother. cbv zeta.
  destruct (setup_logger_mpi_run c root_priority env reg) as [_ ->].
  split.
  - apply lookup_insert_ne. congruence.
  - rewrite lookup_insert_eq. reflexivity.
Qed.

Lemma setup_logger_mpi_frame_witness :
  lit "dolfinx" <> evolver
  /\ registry_of
       (setup_logger_mpi Ex.rank1 logging.INFO Ex.env
          {[ lit "dolfinx" := logging.fresh_logger ]})
     !! lit "dolfinx"
     = ({[ lit "dolfinx" := logging.fresh_logger ]} : gmap pystr Logger)
       !! lit "dolfinx".
Proof.
  split; [vm_compute; discriminate|].
  apply (setup_logger_mpi_frame Ex.rank1 logging.INFO Ex.env
           {[ lit "dolfinx" := logging.fresh_logger ]} (lit "dolfinx")).
  vm_compute; discriminate.
Defined.

(** ** [table_timing_data] *)

Section TimingTable.

Variable timing : pystr -> option Timing.

Lemma collect_timings_mapM (tasks : list pystr) (timing_data : list Timing) :
  collect_timings timing tasks timing_data
  = (fun rows => timing_data ++ rows) <$> mapM timing tasks.
Proof.
  revert timing_data. induction tasks as [|task tasks IH]; intros acc; cbn.
  - rewrite app_nil_r. reflexivity.
  - destruct (timing task) as [row|]; cbn; [|reflexivity].
    rewrite IH. destruct (mapM timing tasks) as [rows|]; cbn; [|reflexivity].
    rewrite <- app_assoc. reflexivity.
Qed.

Lemma table_timing_data_Some (df : pd.DataFrame) :
  table_timing_data timing = Some df <->
  pd.columns df = [lit "reps"; lit "wall tot"; lit "usr"; lit "sys"]
  /\ pd.index df = timing_tasks
  /\ Forall2 (fun task row => timing task = Some row) timing_tasks
       (pd.data df).
Proof.
  unfold table_timing_data. rewrite collect_timings_mapM.
  destruct (mapM timing timing_tasks) as [rows|] eqn:E; cbn.
  - apply mapM_Some in E. split.
    + intros H. injection H as <-. cbn. auto.
    + intros (Hc & Hi & Hd). destruct df as [cs idx rows']. cbn in *.
      subst cs idx. f_equal. f_equal.
      clear -E Hd. revert rows' Hd.
      induction E as [|task row tasks rows H _ IH]; intros rows' Hd;
        inversion Hd; subst; [reflexivity|].
      f_equal; [congruence|]. apply IH. assumption.
  - split; [discriminate|]. intros (_ & _ & Hd).
    apply mapM_Some in Hd. congruence.
Qed.

Lemma timing_tasks_NoDup : NoDup timing_tasks.
Proof. apply (bool_decide_unpack _). vm_compute. reflexivity. Qed.

Lemma loc_rows (idx : list pystr) (rows : list Timing) (task : pystr) :
  NoDup idx ->
  Forall2 (fun task row => timing task = Some row) idx rows ->
  task ∈ idx ->
  exists row,
    timing task = Some row
    /\ map snd
         (List.filter (fun labelled => bool_decide (labelled.1 = task))
            (zip idx rows))
       = [row].
Proof.
  intros Hnd H. induction H as [|t r idx rows Ht _ IH]; intros Hin.
  - apply elem_of_nil in Hin. contradiction.
  - apply NoDup_cons in Hnd as [Hnotin Hnd]. cbn [zip zip_with List.filter fst].
    apply elem_of_cons in Hin as [->|Hin].
    + exists r. split; [exact Ht|].
      rewrite bool_decide_eq_true_2 by reflexivity. cbn [map snd]. f_equal.
      clear -Hnotin. revert rows.
      induction idx as [|t' idx IH]; intros rows; [reflexivity|].
      destruct rows as [|r' rows]; [reflexivity|].
      cbn [zip zip_with List.filter fst].
      rewrite bool_decide_eq_false_2.
      * apply IH. intros H. apply Hnotin. right. exact H.
      * intros ->. apply Hnotin. left.
    + rewrite bool_decide_eq_false_2.
      * apply IH; assumption.
      * intros ->. contradiction.
Qed.

(** X16. [table_timing_data] returns a table exactly when [timing] knows
    each of the nine tasks; one unknown task is enough for the call to
    raise.  The table then has the four column labels, the nine task names
    as row labels in the order of the source, and as its i-th row the
    timing of the i-th task. *)
Theorem table_timing_data_rows :
  (is_Some (table_timing_data timing)
   <-> Forall (fun task => is_Some (timing task)) timing_tasks)
  /\ forall df,
       table_timing_data timing = Some df ->
       pd.columns df = [lit "reps"; lit "wall tot"; lit "usr"; lit "sys"]
       /\ pd.index df = timing_tasks
       /\ length (pd.data df) = 9%nat
       /\ Forall2 (fun task row => timing task = Some row) (pd.index df)
            (pd.data df).
Proof.
  split.
  - unfold table_timing_data. rewrite collect_timings_mapM.
    rewrite <- (mapM_is_Some timing timing_tasks).
    destruct (mapM timing timing_tasks); cbn; split; intros H;
      try (eexists; reflexivity); destruct H as [x H]; discriminate H.
  - intros df H. apply table_timing_data_Some in H as (Hc & Hi & Hd).
    split; [exact Hc|]. split; [exact Hi|]. split.
    + apply Forall2_length in Hd. rewrite <- Hd. reflexivity.
    + rewrite Hi. exact Hd.
Qed.

(** X17. The nine task names differ from one another, so that a row of
    the table can be asked for by its task: [df.loc] gives, for each of the
    nine tasks, the one row that is the timing of that task. *)
Theorem table_timing_data_loc (df : pd.DataFrame) (task : pystr) :
  table_timing_data timing = Some df ->
  task ∈ timing_tasks ->
  exists row, timing task = Some row /\ pd.loc df task = [row].
Proof.
  intros H Hin. apply table_timing_data_Some in H as (_ & Hi & Hd).
  unfold pd.loc. rewrite Hi.
  apply loc_rows; [apply timing_tasks_NoDup|exact Hd|exact Hin].
Qed.

End TimingTable.

Lemma table_timing_data_loc_witness :
  let timing (task : pystr) : option Timing :=
    Some (length task, 1 # 2, 1 # 4, 1 # 8)%Q in
  let df :=
    {| pd.columns := [lit "reps"; lit "wall tot"; lit "usr"; lit "sys"];
       pd.index := timing_tasks;
       pd.data := map (fun task => (length task, 1 # 2, 1 # 4, 1 # 8)%Q)
                    timing_tasks |} in
  table_timing_data timing = Some df
  /\ lit "~Second Order: Stability" ∈ timing_tasks
  /\ exists row,
      timing (lit "~Second Order: Stability") = Some row
      /\ pd.loc df (lit "~Second Order: Stability") = [row].
Proof.
  cbv zeta.
  assert (Hin : lit "~Second Order: Stability" ∈ timing_tasks).
  { apply list_elem_of_In. vm_compute. tauto. }
  split; [vm_compute; reflexivity|].
  split; [exact Hin|].
  apply (table_timing_data_loc
           (fun task => Some (length task, 1 # 2, 1 # 4, 1 # 8)%Q)).
  - vm_compute; reflexivity.
  - exact Hin.
Defined.

Lemma table_timing_data_rows_witness :
  is_Some
    (table_timing_data
       (fun task => Some (length task, 1 # 2, 1 # 4, 1 # 8)%Q))
  <-> Forall
        (fun task =>
           is_Some
             ((fun task => Some (length task, 1 # 2, 1 # 4, 1 # 8)%Q) task))
        timing_tasks.
Proof.
  apply (table_timing_data_rows
           (fun task => Some (length task, 1 # 2, 1 # 4, 1 # 8)%Q)).
Defined.

(** ** [Visualization] *)

Section VisualizationFacts.

Variable DataFrame : Type.
Variable df_drop : DataFrame -> list pystr -> Result DataFrame.
Variable df_str : DataFrame -> pystr.
Variable to_json : DataFrame -> Result pystr.
Variable json_text : pystr -> pystr.

Lemma save_table_other_ranks (io : Event -> option Exn) (c : Comm)
  (self : Visualization.t) (data : DataFrame) (name : pystr) env reg :
  rank c <> 0%nat ->
  Visualization.save_table DataFrame to_json json_text io c self data name
    env reg
  = (Ok tt, reg, []).
Proof.
  intros Hr. apply Nat.eqb_neq in Hr. unfold Visualization.save_table.
  rewrite Hr. reflexivity.
Qed.

Lemma save_table_undisturbed (io : Event -> option Exn) (c : Comm)
  (self : Visualization.t) (data : DataFrame) (name text : pystr) env reg :
  rank c = 0%nat ->
  to_json data = Ok text ->
  undisturbed io
    [EOpen (Visualization.table_path self name) (lit "w");
     EFileWrite (Visualization.table_path self name) (json_text text);
     EClose (Visualization.table_path self name)] ->
  Visualization.save_table DataFrame to_json json_text io c self data name
    env reg
  = (Ok tt, reg,
     [EOpen (Visualization.table_path self name) (lit "w");
      EFileWrite (Visualization.table_path self name) (json_text text);
      EClose (Visualization.table_path self name)]).
Proof.
  intros Hr Hjson Hio. unfold undisturbed in Hio.
  pose proof (Hio _ (or_introl eq_refl)) as H1.
  pose proof (Hio _ (or_intror (or_introl eq_refl))) as H2.
  pose proof (Hio _ (or_intror (or_intror (or_introl eq_refl)))) as H3.
  unfold Visualization.save_table.
  rewrite Hr, Hjson. cbn [Nat.eqb]. cbv zeta.
  unfold bind, attempt, of_result.
  rewrite H1. cbv beta iota delta [tell ret raise].
  rewrite H2. cbv beta iota delta [tell ret raise].
  rewrite H3. reflexivity.
Qed.

(** A call that returns has opened, written and closed its file. *)
Lemma save_table_returns (io : Event -> option Exn) (c : Comm)
  (self : Visualization.t) (data : DataFrame) (name : pystr) env reg :
  rank c = 0%nat ->
  outcome
    (Visualization.save_table DataFrame to_json json_text io c self data
       name env reg) = Ok tt ->
  exists text,
    to_json data = Ok text
    /\ Visualization.save_table DataFrame to_json json_text io c self data
         name env reg
       = (Ok tt, reg,
          [EOpen (Visualization.table_path self name) (lit "w");
           EFileWrite (Visualization.table_path self name) (json_text text);
           EClose (Visualization.table_path self name)]).
Proof.
  intros Hr. unfold Visualization.save_table. rewrite Hr. cbn [Nat.eqb].
  cbv zeta. unfold bind, attempt, of_result.
  destruct (io (EOpen (Visualization.table_path self name) (lit "w")));
    cbn [raise tell ret]; [intros H; discriminate H|].
  destruct (to_json data) as [text|e]; cbn [raise tell ret];
    [|intros H; discriminate H].
  destruct (io (EFileWrite (Visualization.table_path self name)
                  (json_text text)));
    cbn [raise tell ret]; [intros H; discriminate H|].
  destruct (io (EClose (Visualization.table_path self name)));
    cbn [raise tell ret]; [intros H; discriminate H|].
  intros _. exists text. split; reflexivity.
Qed.

Lemma save_table_opens_at_most_once (io : Event -> option Exn) (c : Comm)
  (self : Visualization.t) (data : DataFrame) (name : pystr) env reg :
  (count (opens_for_writing (Visualization.table_path self name))
     (events
        (Visualization.save_table DataFrame to_json json_text io c self data
           name env reg))
   <= 1)%nat.
Proof.
  unfold Visualization.save_table.
  destruct (rank c =? 0)%nat; [|cbn; lia]. cbv zeta.
  unfold bind, attempt, of_result.
  destruct (io (EOpen (Visualization.table_path self name) (lit "w")));
    cbn [raise tell ret]; [cbn; lia|].
  destruct (to_json data) as [text|e]; cbn [raise tell ret].
  - destruct (io (EFileWrite (Visualization.table_path self name)
                    (json_text text)));
      cbn [raise tell ret].
    + unfold events, count; cbn.
      rewrite !bool_decide_eq_true_2 by reflexivity. cbn. lia.
    + destruct (io (EClose (Visualization.table_path self name)));
        cbn [raise tell ret]; unfold events, count; cbn;
        rewrite !bool_decide_eq_true_2 by reflexivity; cbn; lia.
  - unfold events, count; cbn.
    rewrite !bool_decide_eq_true_2 by reflexivity. cbn. lia.
Qed.

(** X18. [save_table] is the work of rank 0: any other rank issues
    nothing, whatever the table.  On rank 0, when [data.to_json()] returns
    and nothing is refused, the file [<prefix>/<name>.json] is opened for
    writing, written once and closed, and holds that one JSON text and
    nothing of what it held before.  When [data.to_json()] raises, the file
    has been opened already: the exception leaves [save_table] with the
    file emptied and not closed.  Over the [n + 1] processes of a
    communicator the file is opened at most once, and it is opened once,
    written once and closed once when the call of rank 0 returns. *)
Theorem save_table_once
  (n : nat) (io : Event -> option Exn) (self : Visualization.t)
  (data : DataFrame) (name : pystr)
  (env : Env) (reg : gmap pystr Logger) (fs : gmap pystr (list Event))
  (c : Comm) :
  let path := Visualization.table_path self name in
  let save c :=
    Visualization.save_table DataFrame to_json json_text io c self data
      name in
  (rank c <> 0%nat -> save c env reg = (Ok tt, reg, []))
  /\ (rank c = 0%nat ->
      forall text,
        to_json data = Ok text ->
        undisturbed io
          [EOpen path (lit "w"); EFileWrite path (json_text text);
           EClose path] ->
        save c env reg
        = (Ok tt, reg,
           [EOpen path (lit "w"); EFileWrite path (json_text text);
            EClose path])
        /\ replay (events (save c env reg)) fs
           = <[path := [EFileWrite path (json_text text)]]> fs)
  /\ (rank c = 0%nat ->
      forall e,
        to_json data = Raise e ->
        io (EOpen path (lit "w")) = None ->
        save c env reg = (Raise e, reg, [EOpen path (lit "w")])
        /\ bracketed None (events (save c env reg)) = false
        /\ replay (events (save c env reg)) fs = <[path := []]> fs)
  /\ (total (count (opens_for_writing path)) (spmd (S n) save env reg)
      <= 1)%nat
  /\ (outcome (save {| rank := 0; size := S n |} env reg) = Ok tt ->
      total (count (opens_for_writing path)) (spmd (S n) save env reg)
      = 1%nat
      /\ total (count is_file_op) (spmd (S n) save env reg) = 3%nat).
Proof.
  cbv zeta. split; [|split; [|split; [|split]]].
  - apply save_table_other_ranks.
  - intros Hr text Hjson Hio.
    rewrite (save_table_undisturbed io c self data name text env reg Hr
               Hjson Hio).
    split; [reflexivity|]. unfold events; cbn [snd].
    apply replay_file. cbn [apply_event].
    rewrite lookup_insert_eq, insert_insert_eq. reflexivity.
  - intros Hr e Hjson Hopen.
    assert (Hrun :
      Visualization.save_table DataFrame to_json json_text io c self data
        name env reg
      = (Raise e, reg,
         [EOpen (Visualization.table_path self name) (lit "w")])).
    { unfold Visualization.save_table. rewrite Hr. cbn [Nat.eqb]. cbv zeta.
      unfold bind, attempt, of_result. rewrite Hopen, Hjson. reflexivity. }
    rewrite Hrun. split; [reflexivity|]. unfold events; cbn [snd].
    split.
    + cbn [bracketed]. rewrite bool_decide_eq_true_2 by reflexivity.
      apply bool_decide_eq_false_2. discriminate.
    + unfold replay. cbn [foldl apply_event].
      rewrite bool_decide_eq_true_2 by reflexivity. reflexivity.
  - rewrite total_spmd_rank0.
    + apply save_table_opens_at_most_once.
    + intros c' Hc. rewrite save_table_other_ranks by exact Hc. reflexivity.
  - intros Hok.
    destruct (save_table_returns io {| rank := 0; size := S n |} self data
                name env reg eq_refl Hok) as (text & _ & Hrun).
    split.
    + rewrite total_spmd_rank0.
      * rewrite Hrun. unfold events, count; cbn.
        rewrite !bool_decide_eq_true_2 by reflexivity. reflexivity.
      * intros c' Hc. rewrite save_table_other_ranks by exact Hc.
        reflexivity.
    + rewrite total_spmd_rank0.
      * rewrite Hrun. reflexivity.
      * intros c' Hc. rewrite save_table_other_ranks by exact Hc.
        reflexivity.
Qed.

(** X19. [save_table] with the prefix of a [ResultsStorage] and the name
    ["time_data"] writes the file into which [store_results] dumps the
    history: after [store_results] and then [save_table(data, "time_data")]
    on rank 0, [time_data.json] holds the table and the history is gone. *)
Theorem save_table_and_store_results
  (prefix text : pystr) (data : DataFrame) (c : Comm) (parameters : PyVal)
  (history_data : gmap pystr (list Sample)) (state : gmap pystr Function)
  (env : Env) (reg : gmap pystr Logger) (fs : gmap pystr (list Event))
  (t : Sample) (u alpha : Function) :
  well_formed history_data state t u alpha ->
  rank c = 0%nat ->
  to_json data = Ok text ->
  let viz := {| Visualization.prefix := prefix |} in
  let store := {| ResultsStorage.comm := c; ResultsStorage.prefix := prefix |} in
  let both :=
    (ResultsStorage.store_results store parameters history_data state ;;
     Visualization.save_table DataFrame to_json json_text accepts_all c viz
       data (lit "time_data")) env reg in
  outcome both = Ok tt
  /\ In (EJsonDump (ResultsStorage.time_data_path store) history_data)
       (events both)
  /\ replay (events both) fs !! ResultsStorage.time_data_path store
     = Some [EFileWrite (ResultsStorage.time_data_path store)
               (json_text text)].
Proof.
  intros Hwf Hr Hjson. cbv zeta.
  rewrite (bind_ok _ _ _ _ _ _ _
             (store_results_well_formed _ parameters history_data state
                env reg _ _ _ Hwf)).
  rewrite (save_table_undisturbed accepts_all c
             {| Visualization.prefix := prefix |} data (lit "time_data")
             text env reg Hr Hjson) by (intros e _; reflexivity).
  unfold outcome, events; cbn [fst snd].
  split; [reflexivity|]. split.
  - apply in_or_app. left. unfold stored.
    cbn [ResultsStorage.comm]. rewrite Hr. cbn [Nat.eqb].
    apply in_or_app. right. apply in_or_app. right. right. left.
    reflexivity.
  - rewrite replay_app, replay_file.
    + assert (E : Visualization.table_path
                    {| Visualization.prefix := prefix |} (lit "time_data")
                  = ResultsStorage.time_data_path
                      {| ResultsStorage.comm := c;
                         ResultsStorage.prefix := prefix |})
        by reflexivity.
      rewrite E. apply lookup_insert_eq.
    + cbn [apply_event]. rewrite lookup_insert_eq, insert_insert_eq.
      reflexivity.
Qed.

(** X20. [visualise_results] has no rank guard and touches no file: when
    [df.drop] accepts the labels and standard output works, each of the
    [n + 1] processes prints the table, so that it appears [n + 1] times,
    where [save_table] writes once. *)
Theorem visualise_results_on_every_rank
  (n : nat) (self : Visualization.t) (df shown : DataFrame)
  (drop : list pystr) (env : Env) (reg : gmap pystr Logger) :
  df_drop df drop = Ok shown ->
  Stdout ∉ broken env ->
  let show (c : Comm) :=
    Visualization.visualise_results DataFrame df_drop df_str self df drop in
  Forall (fun run => run = (Ok tt, reg,
                            [EWrite Stdout (df_str shown); EWrite Stdout [10]]))
    (spmd (S n) show env reg)
  /\ length (spmd (S n) show env reg) = S n
  /\ total (count is_file_op) (spmd (S n) show env reg) = 0%nat.
Proof.
  intros Hdrop Hout. cbv zeta.
  assert (Hrun :
    Visualization.visualise_results DataFrame df_drop df_str self df drop
      env reg
    = (Ok tt, reg, [EWrite Stdout (df_str shown); EWrite Stdout [10]])).
  { unfold Visualization.visualise_results. rewrite Hdrop.
    unfold print, bind, buffer_write, ask, bind.
    rewrite (bool_decide_eq_false_2 _ Hout). reflexivity. }
  split; [|split].
  - unfold spmd. apply Forall_map, Forall_forall. intros r _. exact Hrun.
  - unfold spmd. rewrite length_map, length_seq. reflexivity.
  - rewrite total_spmd_rank0; cbv beta.
    + rewrite Hrun. reflexivity.
    + intros c _. rewrite Hrun. reflexivity.
Qed.

End VisualizationFacts.

Lemma save_table_once_witness :
  let save :=
    Visualization.save_table pd.DataFrame ExTables.to_json
      ExTables.json_text accepts_all Ex.rank0 ExTables.viz
      ExTables.table_twice (lit "timings") in
  rank Ex.rank0 = 0%nat
  /\ ExTables.to_json ExTables.table_twice = Raise ValueError
  /\ save Ex.env ∅
     = (Raise ValueError, ∅, [EOpen (lit "out/timings.json") (lit "w")])
  /\ bracketed None (events (save Ex.env ∅)) = false.
Proof.
  cbv zeta.
  split; [reflexivity|].
  split; [vm_compute; reflexivity|].
  destruct (save_table_once pd.DataFrame ExTables.to_json ExTables.json_text
              3 accepts_all ExTables.viz ExTables.table_twice (lit "timings")
              Ex.env ∅ ∅ Ex.rank0) as (_ & _ & H & _).
  destruct (H eq_refl ValueError) as (Hrun & Hopen & _).
  - vm_compute; reflexivity.
  - reflexivity.
  - split; [exact Hrun | exact Hopen].
Defined.

Lemma save_table_and_store_results_witness :
  well_formed Ex.history Ex.state (1 # 5) Ex.field_u Ex.field_alpha
  /\ rank Ex.rank0 = 0%nat
  /\ ExTables.to_json ExTables.table = Ok (lit "{}")
  /\ replay
       (events
          ((ResultsStorage.store_results
              {| ResultsStorage.comm := Ex.rank0;
                 ResultsStorage.prefix := lit "out" |}
              Ex.parameters Ex.history Ex.state ;;
            Visualization.save_table pd.DataFrame ExTables.to_json
              ExTables.json_text accepts_all Ex.rank0
              {| Visualization.prefix := lit "out" |} ExTables.table
              (lit "time_data")) Ex.env ∅)) ∅
     !! ResultsStorage.time_data_path
          {| ResultsStorage.comm := Ex.rank0;
             ResultsStorage.prefix := lit "out" |}
     = Some [EFileWrite
               (ResultsStorage.time_data_path
                  {| ResultsStorage.comm := Ex.rank0;
                     ResultsStorage.prefix := lit "out" |})
               (ExTables.json_text (lit "{}"))].
Proof.
  assert (Hjson : ExTables.to_json ExTables.table = Ok (lit "{}"))
    by (vm_compute; reflexivity).
  split; [example_well_formed|].
  split; [reflexivity|].
  split; [exact Hjson|].
  apply (save_table_and_store_results pd.DataFrame ExTables.to_json
           ExTables.json_text (lit "out") (lit "{}") ExTables.table
           Ex.rank0 Ex.parameters Ex.history Ex.state Ex.env ∅ ∅ (1 # 5)
           Ex.field_u Ex.field_alpha).
  - example_well_formed.
  - reflexivity.
  - exact Hjson.
Defined.

Lemma visualise_results_on_every_rank_witness :
  ExTables.df_drop ExTables.table [] = Ok ExTables.table
  /\ (Stdout ∉ broken Ex.env)
  /\ length
       (spmd 3
          (fun _ : Comm =>
             Visualization.visualise_results pd.DataFrame ExTables.df_drop
               ExTables.df_str ExTables.viz ExTables.table [])
          Ex.env ∅)
     = 3%nat.
Proof.
  split; [vm_compute; reflexivity|].
  split; [vm_compute; apply not_elem_of_nil|].
  apply (visualise_results_on_every_rank pd.DataFrame ExTables.df_drop
           ExTables.df_str 2 ExTables.viz ExTables.table ExTables.table
           [] Ex.env ∅).
  - vm_compute; reflexivity.
  - vm_compute; apply not_elem_of_nil.
Defined.
